(** * iterm-mcp: command dispatch, script encoding and completion detection

    A shallow embedding of the TypeScript sources of the iterm-mcp server
    (CommandExecutor.ts, TtyOutputReader.ts, SendControlCharacter.ts and
    index.ts) together with the properties its specification states about
    them.

    JavaScript strings are sequences of UTF-16 code units; they are modelled
    as lists of [N].  The automation bridge (osascript talking to iTerm2) is
    modelled by a host state and the meaning of the AppleScript texts the
    sources build; what the shell, [exec] and AppleScript's comparison of
    texts do beyond that is part of the host. *)

From Stdlib Require Import List NArith ZArith QArith Bool Lia String Ascii.
Import ListNotations.

Set Implicit Arguments.

(* ================================================================== *)
(** * Part I: the embedding                                            *)
(* ================================================================== *)

(** ** JavaScript strings and the String.prototype methods the sources use *)
Module JS.

Local Open Scope N_scope.

(** A string is its sequence of UTF-16 code units. *)
Definition jsstring := list N.

(** Well-formed strings hold 16-bit units only. *)
Definition wf_string (s : jsstring) : Prop := Forall (fun c => c < 65536) s.

(** Literals: an ASCII literal of Rocq read as a JavaScript string. *)
Definition lit (s : string) : jsstring :=
  List.map N_of_ascii (list_ascii_of_string s).

(** Named code units. *)
Definition LF : N := 10.
Definition CR : N := 13.
Definition TAB : N := 9.
Definition ESC : N := 27.
Definition DQUOTE : N := 34.
Definition SQUOTE : N := 39.
Definition BACKSLASH : N := 92.

Definition eqb_string (a b : jsstring) : bool :=
  if list_eq_dec N.eq_dec a b then true else false.

(** [s.startsWith(p)], returning what follows the prefix. *)
Fixpoint strip_prefix (p s : jsstring) : option jsstring :=
  match p, s with
  | [], _ => Some s
  | _ :: _, [] => None
  | a :: p', b :: s' => if a =? b then strip_prefix p' s' else None
  end.

(** [s.includes(p)]. *)
Fixpoint includes (p s : jsstring) : bool :=
  match strip_prefix p s with
  | Some _ => true
  | None => match s with
            | [] => false
            | _ :: s' => includes p s'
            end
  end.

(** [s.split(sep)] for a one-unit separator: never empty. *)
Fixpoint split (sep : N) (s : jsstring) : list jsstring :=
  match s with
  | [] => [[]]
  | c :: s' =>
      if c =? sep then [] :: split sep s'
      else match split sep s' with
           | [] => [[c]]
           | l :: ls => (c :: l) :: ls
           end
  end.

(** [lines.join(sep)]. *)
Fixpoint join (sep : jsstring) (ls : list jsstring) : jsstring :=
  match ls with
  | [] => []
  | [l] => l
  | l :: ls' => l ++ sep ++ join sep ls'
  end.

(** [arr.slice(start)]: a negative start counts from the end, and both
    directions are clamped to the array. *)
Definition slice (A : Type) (start : Z) (l : list A) : list A :=
  let len := Z.of_nat (List.length l) in
  let k := if (start <? 0)%Z then Z.max (len + start) 0 else Z.min start len in
  skipn (Z.to_nat k) l.

(** [s.replace(/c/g, r)] for a pattern that is one literal unit. *)
Definition replace_unit (c : N) (r : jsstring) (s : jsstring) : jsstring :=
  flat_map (fun x => if x =? c then r else [x]) s.

(** [s.replace(/[class]/g, f)] for a pattern that is one class of units and
    a replacement computed from the matched unit. *)
Definition replace_class (cls : N -> bool) (f : N -> jsstring) (s : jsstring)
  : jsstring :=
  flat_map (fun x => if cls x then f x else [x]) s.

(** Lower-case hexadecimal digit of a value below 16. *)
Definition hexdigit (d : N) : N :=
  if d <? 10 then 48 + d else 87 + d.

(** [n.toString(16)]: most significant digit first, no padding. *)
Fixpoint toString16_aux (fuel : nat) (n : N) (acc : jsstring) : jsstring :=
  match fuel with
  | O => acc
  | S f =>
      if n <? 16 then hexdigit n :: acc
      else toString16_aux f (n / 16) (hexdigit (n mod 16) :: acc)
  end.

Definition toString16 (n : N) : jsstring :=
  toString16_aux (S (N.to_nat (N.log2 n))) n [].

(** [s.padStart(width, fill)] for a one-unit fill. *)
Definition padStart (width : nat) (fill : N) (s : jsstring) : jsstring :=
  repeat fill (width - List.length s) ++ s.

(** White space as [String.prototype.trim] sees it. *)
Definition is_space (c : N) : bool :=
  ((9 <=? c) && (c <=? 13)) || (c =? 32) || (c =? 160) || (c =? 5760)
  || ((8192 <=? c) && (c <=? 8202)) || (c =? 8232) || (c =? 8233)
  || (c =? 8239) || (c =? 8287) || (c =? 12288) || (c =? 65279).

Fixpoint trimStart (s : jsstring) : jsstring :=
  match s with
  | c :: s' => if is_space c then trimStart s' else s
  | [] => []
  end.

Definition trim (s : jsstring) : jsstring :=
  rev (trimStart (rev (trimStart s))).

(** [s.toUpperCase()], as far as the sources can tell.  The ASCII letters
    a-z map to A-Z.  Outside ASCII the Unicode upper-case mapping sends
    exactly two code units onto a single ASCII letter: U+0131 (dotless i)
    onto I and U+017F (long s) onto S.  Every other unit above 127 maps to
    units above 127, or to several units (U+00DF onto SS, U+FB01 onto FI,
    ...); none of these can make up the texts the sources compare the
    result with (one bracket, ESC, ESCAPE, one letter A-Z), so they are
    left as they are here. *)
Definition upper_unit (c : N) : N :=
  if (97 <=? c) && (c <=? 122) then c - 32
  else if c =? 305 then 73
  else if c =? 383 then 83
  else c.

Definition toUpperCase (s : jsstring) : jsstring := List.map upper_unit s.

(** [/^[A-Z]$/.test(s)]. *)
Definition is_single_AZ (s : jsstring) : bool :=
  match s with
  | [c] => (65 <=? c) && (c <=? 90)
  | _ => false
  end.

(** Decimal rendering of a number inside a template string. *)
Fixpoint decimal_aux (fuel : nat) (n : N) (acc : jsstring) : jsstring :=
  match fuel with
  | O => acc
  | S f =>
      if n <? 10 then (48 + n) :: acc
      else decimal_aux f (n / 10) ((48 + n mod 10) :: acc)
  end.

Definition decimal (n : N) : jsstring :=
  decimal_aux (S (N.to_nat (N.log2 n))) n [].

End JS.

(** ** The two regular expressions of TtyOutputReader, and global replace *)
Module Regex.

Import JS.
Local Open Scope N_scope.

(** The fragment of JavaScript regular expressions the sources use: greedy
    bounded repetition of a class of units, sequencing, and a greedy
    optional group. *)
Inductive re : Type :=
| Eps
| Cls (p : N -> bool) (lo : nat) (hi : option nat)
| Cat (a b : re)
| Opt (a : re).

(** Number of leading units of [s] in the class [p]. *)
Fixpoint span (p : N -> bool) (s : jsstring) : nat :=
  match s with
  | c :: s' => if p c then S (span p s') else O
  | [] => O
  end.

(** Greedy repetition backtracks from the longest count downwards. *)
Fixpoint backoff (A : Type) (k : jsstring -> option A) (s : jsstring)
  (lo n : nat) : option A :=
  if (n <? lo)%nat then None
  else match k (skipn n s) with
       | Some r => Some r
       | None => match n with
                 | O => None
                 | S n' => backoff k s lo n'
                 end
       end.

(** Backtracking matcher in continuation-passing style: [k] receives what
    is left of the input after the part matched so far. *)
Fixpoint matches (A : Type) (r : re) (s : jsstring)
  (k : jsstring -> option A) : option A :=
  match r with
  | Eps => k s
  | Cls p lo hi =>
      let n := span p s in
      backoff k s lo (match hi with Some m => Nat.min m n | None => n end)
  | Cat a b => matches a s (fun s' => matches b s' k)
  | Opt a => match matches a s k with
             | Some x => Some x
             | None => k s
             end
  end.

(** A match anchored at the start of [s]: the rest of the input after it. *)
Definition match_at (r : re) (s : jsstring) : option jsstring :=
  matches r s (@Some jsstring).

(** A literal text as a pattern. *)
Fixpoint Lit (t : jsstring) : re :=
  match t with
  | [] => Eps
  | c :: t' => Cat (Cls (N.eqb c) 1 (Some 1%nat)) (Lit t')
  end.

(** [s.replace(/r/g, repl)] with a constant replacement.  [skip] counts the
    units of the current match still to be dropped. *)
Fixpoint replace_go (r : re) (repl : jsstring) (skip : nat) (s : jsstring)
  : jsstring :=
  match s with
  | [] =>
      match skip, match_at r [] with
      | O, Some _ => repl
      | _, _ => []
      end
  | c :: s' =>
      match skip with
      | S n => replace_go r repl n s'
      | O =>
          match match_at r s with
          | Some rest =>
              match (List.length s - List.length rest)%nat with
              | O => repl ++ c :: replace_go r repl O s'
              | S n => repl ++ replace_go r repl n s'
              end
          | None => c :: replace_go r repl O s'
          end
      end
  end.

Definition replace_all (r : re) (repl : jsstring) (s : jsstring) : jsstring :=
  replace_go r repl O s.

(** The class [[A-Za-z0-9+/]]. *)
Definition is_base64 (c : N) : bool :=
  ((65 <=? c) && (c <=? 90)) || ((97 <=? c) && (c <=? 122))
  || ((48 <=? c) && (c <=? 57)) || (c =? 43) || (c =? 47).

(** [/[A-Za-z0-9+/]{100,}={0,2}/g] *)
Definition base64Pattern : re :=
  Cat (Cls is_base64 100 None) (Cls (N.eqb 61) 0 (Some 2%nat)).

(** [/\x1b\]1337;File=([^:]+)(:[^\n]+)?\n/g] *)
Definition imgcatPrefixPattern : re :=
  Cat (Lit (ESC :: lit "]1337;File="))
   (Cat (Cls (fun c => negb (c =? 58)) 1 None)
    (Cat (Opt (Cat (Lit (lit ":")) (Cls (fun c => negb (c =? LF)) 1 None)))
         (Lit [LF]))).

End Regex.

(** ** The automation bridge: iTerm2 as the AppleScript texts see it *)
Module Bridge.

Import JS.
Local Open Scope N_scope.

(** Which session an operation addresses. *)
Inductive SessionRef : Type :=
| Current
| ByPath (path : jsstring).

(** What a script asks of the session it addresses. *)
Inductive command : Type :=
| WriteText (literal : jsstring)        (* write text "..." *)
| WriteExpression (expr : jsstring)     (* write text (...) *)
| WriteAsciiCharacter (code : N)        (* write text (ASCII character n) *)
| GetContents
| GetIsProcessing
| GetTty.

(** What a search script does when no session has the requested tty. *)
Inductive on_missing : Type :=
| RaiseError    (* error "Session with TTY " & targetTTY & " not found" *)
| ReturnText.   (* return "Session with TTY " & targetTTY & " not found" *)

(** The shapes of script the sources build: the one-line form for the
    current session, the search over windows, tabs and sessions, and the
    search that the earlier builders join from a prefix, the command and a
    suffix.  A search carries the text put between the quotes of
    [set targetTTY to]. *)
Inductive script : Type :=
| TellCurrent (c : command)
| SearchByPath (targetLiteral : jsstring) (c : command) (nf : on_missing)
| JoinedByPath (targetLiteral : jsstring) (c : command).

Definition script_command (sc : script) : command :=
  match sc with
  | TellCurrent c => c
  | SearchByPath _ c _ => c
  | JoinedByPath _ c => c
  end.

(** AppleScript reads a quoted text by dropping each backslash and keeping
    the unit after it, with [\t], [\n] and [\r] standing for the control
    characters. *)
Definition decode_escape (c : N) : N :=
  if c =? 116 then TAB
  else if c =? 110 then LF
  else if c =? 114 then CR
  else c.

Fixpoint unescape (s : jsstring) : jsstring :=
  match s with
  | [] => []
  | c :: s' =>
      if c =? BACKSLASH then
        match s' with
        | [] => []
        | d :: s'' => decode_escape d :: unescape s''
        end
      else c :: unescape s'
  end.

Definition script_target (sc : script) : SessionRef :=
  match sc with
  | TellCurrent _ => Current
  | SearchByPath l _ _ => ByPath (unescape l)
  | JoinedByPath l _ => ByPath (unescape l)
  end.

(** One session of the terminal application.  [tty = None] stands for a
    session whose inspection raises (it is being closed); [answers = false]
    for a session that raises when it is told to do something. *)
Record session : Type := {
  tty : option jsstring;
  contents : jsstring;
  is_processing : bool;
  answers : bool
}.

Definition tab := list session.
Definition window := list tab.

Inductive outcome : Type :=
| Stdout (text : jsstring)
| ScriptError (message : jsstring).

(** The machine as one bridge call finds it.  Three of its parts belong to
    programs outside this repository and are taken as they come:
    [same_text] is AppleScript's [is equal to] on two texts (which by
    default ignores the case of letters), [exec_message] is the message of
    the [Error] with which [exec] rejects when the script raises the given
    error text, and [garbled] is what [exec] gives for a command line that
    does not reach osascript as the script that was written. *)
Record host : Type := {
  running : bool;
  windows : list window;
  current : option session;
  same_text : jsstring -> jsstring -> bool;
  exec_message : script -> jsstring -> jsstring;
  garbled : script -> outcome
}.

Definition boolean_text (b : bool) : jsstring :=
  if b then lit "true" else lit "false".

(** The value the [tell aSession] block of a search script returns. *)
Definition perform (target : jsstring) (c : command) (s : session)
  : jsstring :=
  match c with
  | WriteText _ | WriteExpression _ => lit "Command sent to " ++ target
  | WriteAsciiCharacter _ => []
  | GetContents => contents s
  | GetIsProcessing => boolean_text (is_processing s)
  | GetTty => match tty s with Some t => t | None => [] end
  end.

(** [repeat with aSession in sessions of aTab]: the first session whose tty
    is equal to the target and that does what it is told answers; an error
    raised inside the [try] block is dropped and the loop goes on. *)
Fixpoint search_sessions (same : jsstring -> jsstring -> bool)
  (target : jsstring) (c : command) (ss : list session) : option jsstring :=
  match ss with
  | [] => None
  | s :: ss' =>
      match tty s with
      | Some t =>
          if same t target && answers s then Some (perform target c s)
          else search_sessions same target c ss'
      | None => search_sessions same target c ss'
      end
  end.

Fixpoint search_tabs (same : jsstring -> jsstring -> bool)
  (target : jsstring) (c : command) (ts : list tab) : option jsstring :=
  match ts with
  | [] => None
  | t :: ts' =>
      match search_sessions same target c t with
      | Some v => Some v
      | None => search_tabs same target c ts'
      end
  end.

Fixpoint search_windows (same : jsstring -> jsstring -> bool)
  (target : jsstring) (c : command) (ws : list window) : option jsstring :=
  match ws with
  | [] => None
  | w :: ws' =>
      match search_tabs same target c w with
      | Some v => Some v
      | None => search_windows same target c ws'
      end
  end.

Definition not_found_text (target : jsstring) : jsstring :=
  lit "Session with TTY " ++ target ++ lit " not found".

(** The value of the one-line form on the current session. *)
Definition perform_current (c : command) (s : session) : jsstring :=
  match c with
  | GetContents => contents s
  | GetIsProcessing => boolean_text (is_processing s)
  | GetTty => match tty s with Some t => t | None => [] end
  | _ => []
  end.

(** What the script does inside the application: the value osascript
    prints, followed by a line break, or the error text the script ends
    with. *)
Definition in_application (h : host) (sc : script) : outcome :=
  if negb (running h) then ScriptError (lit "Application isn't running.")
  else
    match sc with
    | TellCurrent c =>
        match current h with
        | Some s =>
            if answers s then Stdout (perform_current c s ++ [LF])
            else ScriptError (lit "The session did not answer.")
        | None => ScriptError (lit "Can't get current window.")
        end
    | SearchByPath l c nf =>
        let target := unescape l in
        match search_windows (same_text h) target c (windows h) with
        | Some v => Stdout (v ++ [LF])
        | None =>
            match nf with
            | RaiseError => ScriptError (not_found_text target)
            | ReturnText => Stdout (not_found_text target ++ [LF])
            end
        end
    | JoinedByPath _ _ => garbled h sc
    end.

(** The script is pasted between the single quotes of
    [osascript -e '...'] and the line is handed to the shell.  Inside single
    quotes the shell keeps every character but the single quote itself, and
    a command line cannot hold a NUL. *)
Definition passes_quotes (s : jsstring) : bool :=
  forallb (fun c => negb (c =? SQUOTE) && negb (c =? 0)) s.

(** The only single quotes the sources protect are those of a one-line
    command, each written as the group quote, backslash, quote, quote, which
    the shell joins back into one quote. *)
Fixpoint quotes_rejoined (s : jsstring) : bool :=
  match s with
  | [] => true
  | c :: s' =>
      if c =? SQUOTE then
        match s' with
        | b :: q :: r :: s'' =>
            (b =? BACKSLASH) && (q =? SQUOTE) && (r =? SQUOTE)
            && quotes_rejoined s''
        | _ => false
        end
      else negb (c =? 0) && quotes_rejoined s'
  end.

Definition command_intact (c : command) : bool :=
  match c with
  | WriteText literal => quotes_rejoined literal
  | WriteExpression expr => passes_quotes expr
  | _ => true
  end.

(** The command line hands osascript the script its builder meant.  The
    joined search never does: its prefix ends in a comment, which takes the
    command and the first line of the suffix with it. *)
Definition intact (sc : script) : bool :=
  match sc with
  | TellCurrent c => command_intact c
  | SearchByPath l c _ => passes_quotes l && command_intact c
  | JoinedByPath _ _ => false
  end.

(** The length in bytes of a text on the standard output (UTF-8; the two
    halves of a surrogate pair make four bytes). *)
Definition utf8_width (c : N) : N :=
  if c <? 128 then 1
  else if c <? 2048 then 2
  else if (55296 <=? c) && (c <? 57344) then 2
  else 3.

Definition utf8_length (s : jsstring) : N :=
  fold_right (fun c n => utf8_width c + n) 0 s.

(** [exec] is called without options, so its [maxBuffer] is the default of
    1024 * 1024 bytes. *)
Definition MAX_BUFFER : N := 1048576.

Definition MAX_BUFFER_MESSAGE : jsstring :=
  lit "stdout maxBuffer length exceeded".

(** [execPromise(`osascript -e '...'`)]: the standard output, or the message
    of the [Error] the promise rejects with. *)
Definition run_script (h : host) (sc : script) : outcome :=
  if intact sc then
    match in_application h sc with
    | Stdout text =>
        if utf8_length text <=? MAX_BUFFER then Stdout text
        else ScriptError MAX_BUFFER_MESSAGE
    | ScriptError raised => ScriptError (exec_message h sc raised)
    end
  else garbled h sc.

(** A session with the given device path is open, as the host compares
    texts. *)
Definition has_session (h : host) (path : jsstring) : Prop :=
  exists w t s p,
    In w (windows h) /\ In t w /\ In s t /\ tty s = Some p
    /\ same_text h p path = true.

End Bridge.

(** ** Effects: bridge calls, sleeps, the tty file and the process probe *)
Module Effects.

Import JS Bridge.

(** One answer of [ProcessTracker.getActiveProcess]: no foreground process,
    a failure to inspect it, or a process with its [totalCPUPercent]. *)
Inductive probe : Type :=
| NoProcess
| ProbeFailure
| Active (totalCPUPercent : Q).

Inductive event : Type :=
| Osascript (sc : script)
| Sleep (ms : Z)
| OpenSync (path : jsstring)
| CloseSync
| GetActiveProcess (path : jsstring).

(** The environment of one tool call: the host application as each
    successive bridge call finds it, whether the tty file can be opened,
    the successive answers of the process probe, and the trace of effects
    performed so far (oldest first). *)
Record world : Type := {
  hosts : list host;
  tty_opens : bool;
  probes : list probe;
  log : list event
}.

Definition emit_event (e : event) (w : world) : world :=
  {| hosts := hosts w; tty_opens := tty_opens w; probes := probes w;
     log := log w ++ [e] |}.

Definition next_host (w : world) : world :=
  {| hosts := tl (hosts w); tty_opens := tty_opens w; probes := probes w;
     log := log w |}.

Definition next_probe (w : world) : world :=
  {| hosts := hosts w; tty_opens := tty_opens w; probes := tl (probes w);
     log := log w |}.

(** How a computation ends: with a value or with a thrown [Error]. *)
Inductive completion (A : Type) : Type :=
| Normal (a : A)
| Thrown (message : jsstring).
Arguments Thrown {A} message.

(** An asynchronous computation.  [None] means it is still running when the
    observed environment ends. *)
Definition M (A : Type) : Type := world -> option (completion A * world).

Definition ret (A : Type) (a : A) : M A := fun w => Some (Normal a, w).

Definition throw (A : Type) (message : jsstring) : M A :=
  fun w => Some (Thrown message, w).
Arguments throw {A} message.

Definition bind (A B : Type) (m : M A) (f : A -> M B) : M B :=
  fun w =>
    match m w with
    | None => None
    | Some (Normal a, w') => f a w'
    | Some (Thrown e, w') => Some (Thrown e, w')
    end.

(** [try { body } catch (error) { handler(error.message) }] *)
Definition try_catch (A : Type) (body : M A) (handler : jsstring -> M A)
  : M A :=
  fun w =>
    match body w with
    | None => None
    | Some (Normal a, w') => Some (Normal a, w')
    | Some (Thrown e, w') => handler e w'
    end.

(** [try { body } finally { fin; return v }]: the [return] of the finally
    block replaces whatever completion the body had. *)
Definition finally_return (A B : Type) (body : M A) (fin : M unit) (v : B)
  : M B :=
  fun w =>
    match body w with
    | None => None
    | Some (_, w') =>
        match fin w' with
        | None => None
        | Some (Normal _, w'') => Some (Normal v, w'')
        | Some (Thrown e, w'') => Some (Thrown e, w'')
        end
    end.

Definition emit (e : event) : M unit :=
  fun w => Some (Normal tt, emit_event e w).

(** [await execPromise(`osascript -e '...'`)]: the standard output, or an
    [Error] with the message [exec] gave it. *)
Definition osascript (sc : script) : M jsstring :=
  fun w =>
    match hosts w with
    | [] => None
    | h :: _ =>
        let w' := emit_event (Osascript sc) (next_host w) in
        match run_script h sc with
        | Stdout text => Some (Normal text, w')
        | ScriptError message => Some (Thrown message, w')
        end
    end.

Definition sleep (ms : Z) : M unit := emit (Sleep ms).

Definition openSync (path : jsstring) : M unit :=
  fun w =>
    let w' := emit_event (OpenSync path) w in
    if tty_opens w then Some (Normal tt, w')
    else Some (Thrown (lit "ENOENT: no such file or directory"), w').

Definition closeSync : M unit := emit CloseSync.

Definition getActiveProcess (path : jsstring) : M (option Q) :=
  fun w =>
    match probes w with
    | [] => None
    | p :: _ =>
        let w' := emit_event (GetActiveProcess path) (next_probe w) in
        match p with
        | NoProcess => Some (Normal None, w')
        | ProbeFailure => Some (Thrown (lit "probe failed"), w')
        | Active cpu => Some (Normal (Some cpu), w')
        end
    end.

(** A value used as a condition: [undefined] and the empty string are
    falsy, so [x || null] and [if (x)] keep non-empty strings only. *)
Definition truthy (s : option jsstring) : option jsstring :=
  match s with
  | Some (c :: s') => Some (c :: s')
  | _ => None
  end.

(** [path.replace(/\\/g, '\\\\').replace(/"/g, '\\"')], the text put
    between the quotes of [set targetTTY to "..."]. *)
Definition escape_tty (path : jsstring) : jsstring :=
  replace_unit DQUOTE [BACKSLASH; DQUOTE]
    (replace_unit BACKSLASH [BACKSLASH; BACKSLASH] path).

Definition session_ref (targetTtyPath : option jsstring) : SessionRef :=
  match targetTtyPath with
  | Some p => ByPath p
  | None => Current
  end.

End Effects.

Declare Scope js_scope.
Delimit Scope js_scope with js.
Notation "x <- m ;; k" := (Effects.bind m (fun x => k))
  (at level 61, m at next level, right associativity) : js_scope.
Notation "m ;;; k" := (Effects.bind m (fun _ => k))
  (at level 61, right associativity) : js_scope.

(** ** TtyOutputReader.ts *)
Module TtyOutputReader.

Import JS Regex Bridge Effects.
Local Open Scope js_scope.

Definition BASE64_PLACEHOLDER : jsstring :=
  lit "[BASE64_IMAGE_CONTENT_FILTERED]".

Definition IMGCAT_PLACEHOLDER : jsstring :=
  lit "[IMGCAT_PREFIX_FILTERED]" ++ [LF].

(** [static filterBase64Content(content)] *)
Definition filterBase64Content (content : jsstring) : jsstring :=
  let filteredContent := replace_all base64Pattern BASE64_PLACEHOLDER content in
  replace_all imgcatPrefixPattern IMGCAT_PLACEHOLDER filteredContent.

(** The script [retrieveBuffer] builds. *)
Definition buffer_script (ttyPath : option jsstring) : script :=
  match truthy ttyPath with
  | Some p => SearchByPath (escape_tty p) GetContents ReturnText
  | None => TellCurrent GetContents
  end.

(** The [catch] clause of [retrieveBuffer]. *)
Definition rethrow_buffer (message : jsstring) : M jsstring :=
  if includes (lit "Session with TTY") message then
    throw (lit "Failed to retrieve buffer: " ++ message)
  else if includes (lit "Application isn\'t running") message then
    throw (lit "Failed to retrieve buffer: iTerm2 application might not be running. Original error: "
           ++ message)
  else throw (lit "Failed to retrieve buffer: " ++ message).

(** [static async retrieveBuffer(ttyPath?)] *)
Definition retrieveBuffer (ttyPath : option jsstring) : M jsstring :=
  try_catch
    (finalContent <- osascript (buffer_script ttyPath) ;;
     ret (trim finalContent))
    rethrow_buffer.

(** The slicing both revisions of [call] end with.  [!linesOfOutput] holds
    for [undefined] and for 0. *)
Definition last_lines (linesOfOutput : option Z) (buffer : jsstring)
  : jsstring :=
  match linesOfOutput with
  | None | Some 0%Z => buffer
  | Some n => join [LF] (slice (- n - 1) (split LF buffer))
  end.

(** [static async call(linesOfOutput?, ttyPath?)] of TtyOutputReader.ts. *)
Definition call (linesOfOutput : option Z) (ttyPath : option jsstring)
  : M jsstring :=
  buffer <- retrieveBuffer ttyPath ;;
  ret (last_lines linesOfOutput buffer).

(** [static async call(linesOfOutput?, ttyPath?, filterBase64 = true)] of
    the revision that filters embedded payloads. *)
Definition call_filtering (linesOfOutput : option Z)
  (ttyPath : option jsstring) (filterBase64 : option bool) : M jsstring :=
  buffer <- retrieveBuffer ttyPath ;;
  let processedBuffer :=
    match filterBase64 with
    | Some false => buffer
    | _ => filterBase64Content buffer
    end in
  ret (last_lines linesOfOutput processedBuffer).

End TtyOutputReader.

(** ** CommandExecutor.ts *)
Module CommandExecutor.

Import JS Bridge Effects.
Local Open Scope js_scope.

(** [private escapeAppleScriptString(str)] *)
Definition escapeAppleScriptString (str : jsstring) : jsstring :=
  replace_unit TAB (lit "\t")
    (replace_unit DQUOTE [BACKSLASH; DQUOTE]
      (replace_unit BACKSLASH [BACKSLASH; BACKSLASH] str)).

Definition quoted (line : jsstring) : jsstring :=
  [DQUOTE] ++ escapeAppleScriptString line ++ [DQUOTE].

Definition RETURN_JOIN : jsstring := lit " & return & ".

(** [private prepareMultilineCommand(str)]: the first line, then one
    [' & return & "' + ... + '"'] appended per further line. *)
Definition prepareMultilineCommand (str : jsstring) : jsstring :=
  match split LF str with
  | [] => quoted (lit "undefined")
  | line0 :: lines =>
      fold_left (fun applescriptString line =>
                   applescriptString ++ RETURN_JOIN ++ quoted line)
                lines (quoted line0)
  end.

(** The class [[^\x20-\x7E]]. *)
Definition not_printable (c : N) : bool :=
  negb ((32 <=? c)%N && (c <=? 126)%N).

(** ['\\u' + char.charCodeAt(0).toString(16).padStart(4, '0')] *)
Definition unicode_escape (c : N) : jsstring :=
  lit "\u" ++ padStart 4 48%N (toString16 c).

(** [private escapeForAppleScript(str)] *)
Definition escapeForAppleScript (str : jsstring) : jsstring :=
  if includes [LF] str then prepareMultilineCommand str
  else
    let str := replace_unit BACKSLASH [BACKSLASH; BACKSLASH] str in
    let str := replace_unit DQUOTE [BACKSLASH; DQUOTE] str in
    let str := replace_unit SQUOTE (lit "'\''") str in
    replace_class not_printable unicode_escape str.

(** [activeProcess.metrics.totalCPUPercent < 1], the percentage being a
    rational number. *)
Definition below_threshold (cpu : Q) : bool := negb (Qle_bool 1 cpu).

(** What one turn of the [while (true)] loop decides. *)
Inductive turn : Type :=
| Return (value : bool)
| Continue (belowThresholdTime : Z).

(** The inner [try] of the loop, with its [catch { return true }]. *)
Definition probe_once (ttyPath : jsstring) (belowThresholdTime : Z)
  : M turn :=
  try_catch
    (activeProcess <- getActiveProcess ttyPath ;;
     match activeProcess with
     | None => ret (Return true)
     | Some cpu =>
         if below_threshold cpu then
           let belowThresholdTime := (belowThresholdTime + 350)%Z in
           if (1000 <=? belowThresholdTime)%Z then ret (Return true)
           else ret (Continue belowThresholdTime)
         else ret (Continue 0%Z)
     end)
    (fun _ => ret (Return true)).

(** [while (true) { ...; await sleep(350) }].  Every turn consumes one
    answer of the probe, so [fuel] beyond their number is never reached. *)
Fixpoint debounce_loop (fuel : nat) (ttyPath : jsstring)
  (belowThresholdTime : Z) : M bool :=
  match fuel with
  | O => fun _ => None
  | S fuel' =>
      t <- probe_once ttyPath belowThresholdTime ;;
      match t with
      | Return value => ret value
      | Continue belowThresholdTime' =>
          sleep 350 ;;; debounce_loop fuel' ttyPath belowThresholdTime'
      end
  end.

(** [async isWaitingForUserInput(ttyPath)] *)
Definition isWaitingForUserInput (ttyPath : jsstring) : M bool :=
  fun w =>
    let fd_defined := tty_opens w in
    finally_return
      (try_catch
         (openSync ttyPath ;;;
          debounce_loop (S (List.length (probes w))) ttyPath 0%Z)
         (fun _ => ret true))
      (if fd_defined then closeSync else ret tt)
      true
      w.

(** The script [isProcessing] builds. *)
Definition processing_script (targetTtyPath : option jsstring) : script :=
  match targetTtyPath with
  | Some p => SearchByPath (escape_tty p) GetIsProcessing RaiseError
  | None => TellCurrent GetIsProcessing
  end.

(** [private async isProcessing()] *)
Definition isProcessing (targetTtyPath : option jsstring) : M bool :=
  try_catch
    (stdout <- osascript (processing_script targetTtyPath) ;;
     ret (eqb_string (trim stdout) (lit "true")))
    (fun message =>
       if includes (lit "Session with TTY") message then
         throw (lit "Failed to check processing status: " ++ message)
       else if includes (lit "Application isn\'t running") message then
         throw (lit "Failed to check processing status: iTerm2 application might not be running. Original error: "
                ++ message)
       else throw (lit "Failed to check processing status: " ++ message)).

(** [private async retrieveTtyPath()]; the [console.warn] for a path that
    does not start with /dev/tty has no effect on the result. *)
Definition retrieveTtyPath (targetTtyPath : option jsstring) : M jsstring :=
  match targetTtyPath with
  | Some p => ret p
  | None =>
      try_catch
        (stdout <- osascript (TellCurrent GetTty) ;;
         match trim stdout with
         | [] => throw (lit "Could not retrieve TTY path for the current iTerm session.")
         | tty => ret tty
         end)
        (fun message =>
           if includes (lit "Application isn\'t running") message then
             throw (lit "Failed to retrieve TTY path: iTerm2 application might not be running. Original error: "
                    ++ message)
           else throw (lit "Failed to retrieve TTY path: " ++ message))
  end.

(** [while (await this.isProcessing()) { await sleep(100); }] *)
Fixpoint while_processing (fuel : nat) (targetTtyPath : option jsstring)
  : M unit :=
  match fuel with
  | O => fun _ => None
  | S fuel' =>
      busy <- isProcessing targetTtyPath ;;
      if busy then sleep 100 ;;; while_processing fuel' targetTtyPath
      else ret tt
  end.

(** [while (await this.isWaitingForUserInput(ttyPath) === false)
       { await sleep(100); }] *)
Fixpoint while_not_waiting (fuel : nat) (ttyPath : jsstring) : M unit :=
  match fuel with
  | O => fun _ => None
  | S fuel' =>
      waiting <- isWaitingForUserInput ttyPath ;;
      if negb waiting then sleep 100 ;;; while_not_waiting fuel' ttyPath
      else ret tt
  end.

(** The script [executeCommand] sends. *)
Definition write_script (targetTtyPath : option jsstring)
  (command : jsstring) : script :=
  let escapedCommand := escapeForAppleScript command in
  let scriptCommand :=
    if includes [LF] command then WriteExpression escapedCommand
    else WriteText escapedCommand in
  match targetTtyPath with
  | Some p => SearchByPath (escape_tty p) scriptCommand RaiseError
  | None => TellCurrent scriptCommand
  end.

(** [async executeCommand(command)], for an executor built by
    [new CommandExecutor(targetTtyPath)], in the revision that writes the
    search over windows, tabs and sessions out in full and reads the final
    buffer from the targeted session. *)
Definition executeCommand (targetTtyPath : option jsstring)
  (command : jsstring) : M jsstring :=
  let this_targetTtyPath := truthy targetTtyPath in
  try_catch
    (fun w =>
       (osascript (write_script this_targetTtyPath command) ;;;
        while_processing (S (List.length (hosts w))) this_targetTtyPath ;;;
        ttyPath <- retrieveTtyPath this_targetTtyPath ;;
        while_not_waiting (S (List.length (probes w))) ttyPath ;;;
        sleep 200 ;;;
        TtyOutputReader.retrieveBuffer this_targetTtyPath) w)
    (fun message =>
       if includes (lit "Session with TTY") message then
         throw (lit "Failed to execute command: " ++ message)
       else if includes (lit "Application isn\'t running") message then
         throw (lit "Failed to execute command: iTerm2 application might not be running. Original error: "
                ++ message)
       else throw (lit "Failed to execute command: " ++ message)).

End CommandExecutor.

(** ** SendControlCharacter.ts *)
Module SendControlCharacter.

Import JS Bridge Effects.
Local Open Scope js_scope.
Local Open Scope N_scope.

Definition INVALID_LETTER : jsstring := lit "Invalid control character letter".

(** [letter.charCodeAt(0)] *)
Definition charCodeAt0 (s : jsstring) : N := nth 0 s 0.

(** The first part of [send]: the control code, or [None] where the
    source throws ['Invalid control character letter']. *)
Definition control_code (letter : jsstring) : option N :=
  if eqb_string (toUpperCase letter) (lit "]") then Some 29
  else if eqb_string (toUpperCase letter) (lit "ESCAPE")
          || eqb_string (toUpperCase letter) (lit "ESC") then Some 27
  else
    let letter := toUpperCase letter in
    if negb (is_single_AZ letter) then None
    else Some (charCodeAt0 letter - 64).

(** The script [send] builds once the code is known (the revision that
    writes the whole search out). *)
Definition control_script (targetTtyPath : option jsstring) (controlCode : N)
  : script :=
  match targetTtyPath with
  | Some p =>
      SearchByPath (escape_tty p) (WriteAsciiCharacter controlCode) RaiseError
  | None => TellCurrent (WriteAsciiCharacter controlCode)
  end.

(** [async send(letter)], for a sender built by
    [new SendControlCharacter(targetTtyPath)]. *)
Definition send (targetTtyPath : option jsstring) (letter : jsstring)
  : M unit :=
  let this_targetTtyPath := truthy targetTtyPath in
  match control_code letter with
  | None => throw INVALID_LETTER
  | Some controlCode =>
      try_catch
        (osascript (control_script this_targetTtyPath controlCode) ;;; ret tt)
        (fun message =>
           if includes (lit "Session with TTY") message then
             throw (lit "Failed to send control character: " ++ message)
           else if includes (lit "Application isn\'t running") message then
             throw (lit "Failed to send control character: iTerm2 application might not be running. Original error: "
                    ++ message)
           else throw (lit "Failed to send control character: " ++ message))
  end.

(** The revision of SendControlCharacter.ts that builds its script as
    [`${scriptPrefix} to ${scriptCommand}${scriptSuffix}`].  For the current
    session the prefix is the one-line form and the suffix is empty; for a
    path the prefix ends in [tell sess -- Found the target session]. *)
Definition control_script_joined (targetTtyPath : option jsstring)
  (controlCode : N) : script :=
  match targetTtyPath with
  | Some p => JoinedByPath (escape_tty p) (WriteAsciiCharacter controlCode)
  | None => TellCurrent (WriteAsciiCharacter controlCode)
  end.

Definition send_joined (targetTtyPath : option jsstring) (letter : jsstring)
  : M unit :=
  let this_targetTtyPath := truthy targetTtyPath in
  match control_code letter with
  | None => throw INVALID_LETTER
  | Some controlCode =>
      try_catch
        (osascript (control_script_joined this_targetTtyPath controlCode)
         ;;; ret tt)
        (fun message =>
           if includes (lit "Session with TTY") message then
             throw (lit "Failed to send control character: " ++ message)
           else if includes (lit "Application isn\'t running") message then
             throw (lit "Failed to send control character: iTerm2 application might not be running. Original error: "
                    ++ message)
           else throw (lit "Failed to send control character: " ++ message))
  end.

End SendControlCharacter.

(** ** index.ts: the tool dispatcher *)
Module Index.

Import JS Bridge Effects.
Local Open Scope js_scope.

(** [request.params.arguments]; every field may be absent. *)
Record arguments : Type := {
  command : option jsstring;
  ttyPath : option jsstring;
  linesOfOutput : option Z;
  letter : option jsstring;
  filterBase64 : option bool
}.

Inductive tool : Type :=
| write_to_terminal
| read_terminal_output
| send_control_character.

(** [String(x)] of an optional string. *)
Definition String_ (x : option jsstring) : jsstring :=
  match x with
  | Some s => s
  | None => lit "undefined"
  end.

Definition DEFAULT_TTY : jsstring := lit "/dev/ttys001".

(** index.ts:
    [arguments?.ttyPath ? String(arguments.ttyPath) : "/dev/ttys001"] *)
Definition resolve_ttyPath (a : arguments) : option jsstring :=
  match truthy (ttyPath a) with
  | Some p => Some p
  | None => Some DEFAULT_TTY
  end.

(** The earlier revision of the dispatcher:
    [arguments?.ttyPath ? String(arguments.ttyPath) : undefined] *)
Definition resolve_ttyPath_earlier (a : arguments) : option jsstring :=
  match truthy (ttyPath a) with
  | Some p => Some p
  | None => None
  end.

(** [Number(arguments?.linesOfOutput) || 25] *)
Definition requested_lines (a : arguments) : Z :=
  match linesOfOutput a with
  | None | Some 0%Z => 25%Z
  | Some n => n
  end.

Definition line_count (buffer : jsstring) : Z :=
  Z.of_nat (List.length (split LF buffer)).

Definition write_report (outputLines : Z) : jsstring :=
  decimal (Z.to_N outputLines)
  ++ lit " lines were output after sending the command to the terminal. Read the last "
  ++ decimal (Z.to_N outputLines)
  ++ lit " lines of terminal contents to orient yourself. Never assume that the command was executed or that it was successful.".

Definition control_report (letter : jsstring) : jsstring :=
  lit "Sent control character: Control-" ++ toUpperCase letter.

(** The [CallToolRequestSchema] handler of index.ts; the result is the text
    of the single content item. *)
Definition call_tool (name : tool) (a : arguments) : M jsstring :=
  let ttyPath := resolve_ttyPath a in
  match name with
  | write_to_terminal =>
      let command := String_ (command a) in
      beforeCommandBuffer <- TtyOutputReader.retrieveBuffer ttyPath ;;
      let beforeCommandBufferLines := line_count beforeCommandBuffer in
      CommandExecutor.executeCommand ttyPath command ;;;
      rawAfterCommandBuffer <- TtyOutputReader.retrieveBuffer ttyPath ;;
      let afterCommandBuffer :=
        match filterBase64 a with
        | Some false => rawAfterCommandBuffer
        | _ => TtyOutputReader.filterBase64Content rawAfterCommandBuffer
        end in
      let afterCommandBufferLines := line_count afterCommandBuffer in
      let outputLines :=
        Z.max 0 (afterCommandBufferLines - beforeCommandBufferLines) in
      ret (write_report outputLines)
  | read_terminal_output =>
      TtyOutputReader.call_filtering (Some (requested_lines a)) ttyPath
        (Some (match filterBase64 a with Some false => false | _ => true end))
  | send_control_character =>
      let letter := String_ (letter a) in
      SendControlCharacter.send ttyPath letter ;;;
      ret (control_report letter)
  end.

(** The handler of the earlier revision of the dispatcher. *)
Definition call_tool_earlier (name : tool) (a : arguments) : M jsstring :=
  let ttyPath := resolve_ttyPath_earlier a in
  match name with
  | write_to_terminal =>
      let command := String_ (command a) in
      beforeCommandBuffer <- TtyOutputReader.retrieveBuffer ttyPath ;;
      let beforeCommandBufferLines := line_count beforeCommandBuffer in
      CommandExecutor.executeCommand ttyPath command ;;;
      afterCommandBuffer <- TtyOutputReader.retrieveBuffer ttyPath ;;
      let afterCommandBufferLines := line_count afterCommandBuffer in
      let outputLines :=
        Z.max 0 (afterCommandBufferLines - beforeCommandBufferLines) in
      ret (write_report outputLines)
  | read_terminal_output =>
      TtyOutputReader.call (Some (requested_lines a)) ttyPath
  | send_control_character =>
      let letter := String_ (letter a) in
      SendControlCharacter.send ttyPath letter ;;;
      ret (control_report letter)
  end.

(** The session each component addresses for the path it receives: the
    search by path for a non-empty string, the current session otherwise. *)
Definition addressed (ttyPath : option jsstring) : SessionRef :=
  session_ref (truthy ttyPath).

(** The scripts among the effects of a run. *)
Fixpoint scripts_of (l : list event) : list script :=
  match l with
  | [] => []
  | Osascript sc :: l' => sc :: scripts_of l'
  | _ :: l' => scripts_of l'
  end.

End Index.

(** ** A host that follows the AppleScript reading of an expression *)
Module Host.

Import JS Bridge.
Local Open Scope N_scope.

(** Where the reader of an expression stands. *)
Inductive reading : Type :=
| ExpectQuote                       (* an opening quote must come *)
| InText (acc : jsstring)           (* inside a quoted text *)
| InEscape (acc : jsstring)         (* just after a backslash *)
| AfterText                         (* a text was closed *)
| InJoin (todo : jsstring).         (* inside [ & return & ] *)

Definition JOIN : jsstring := lit " & return & ".

(** Reads an expression made of quoted texts joined by [& return &].
    Each quoted text is unescaped; the result lists the texts in order and
    counts the joins met.  [None] is a syntax error. *)
Fixpoint read (st : reading) (texts : list jsstring) (joins : nat)
  (s : jsstring) : option (list jsstring * nat) :=
  match s with
  | [] =>
      match st with
      | AfterText => Some (rev texts, joins)
      | _ => None
      end
  | c :: s' =>
      match st with
      | ExpectQuote =>
          if c =? DQUOTE then read (InText []) texts joins s' else None
      | InText acc =>
          if c =? DQUOTE then read AfterText (rev acc :: texts) joins s'
          else if c =? BACKSLASH then read (InEscape acc) texts joins s'
          else read (InText (c :: acc)) texts joins s'
      | InEscape acc =>
          read (InText (decode_escape c :: acc)) texts joins s'
      | AfterText =>
          match JOIN with
          | j :: todo =>
              if c =? j then read (InJoin todo) texts joins s' else None
          | [] => None
          end
      | InJoin todo =>
          match todo with
          | [] => None
          | j :: todo' =>
              if c =? j then
                match todo' with
                | [] => read ExpectQuote texts (S joins) s'
                | _ => read (InJoin todo') texts joins s'
                end
              else None
          end
      end
  end.

(** The texts and the number of joins of an expression. *)
Definition parse (expr : jsstring) : option (list jsstring * nat) :=
  read ExpectQuote [] O expr.

(** The value of an expression: its texts joined by [return], the line
    break of the host language. *)
Definition evaluate (expr : jsstring) : option jsstring :=
  match parse expr with
  | Some (texts, _) => Some (join [CR] texts)
  | None => None
  end.

End Host.

(** ** The specification's vocabulary

    These definitions follow the words of the specification; the theorems
    of Part II compare them with the embedding of the sources above. *)
Module Spec.

Import JS Regex Bridge Effects.
Local Open Scope N_scope.

(** Four lower-case hexadecimal digits, zero-padded. *)
Definition hex4 (c : N) : jsstring :=
  [hexdigit (c / 4096); hexdigit (c / 256 mod 16);
   hexdigit (c / 16 mod 16); hexdigit (c mod 16)].


(** The single-line encoding of one code unit. *)
Definition escaped_unit (c : N) : jsstring :=
  if c =? BACKSLASH then [BACKSLASH; BACKSLASH]
  else if c =? DQUOTE then [BACKSLASH; DQUOTE]
  else if c =? SQUOTE then [SQUOTE; BACKSLASH; SQUOTE; SQUOTE]
  else if (32 <=? c) && (c <=? 126) then [c]
  else [BACKSLASH; 117] ++ hex4 c.

(** One unit of a line as [escapeAppleScriptString] leaves it. *)
Definition line_unit (c : N) : jsstring :=
  if c =? BACKSLASH then [BACKSLASH; BACKSLASH]
  else if c =? DQUOTE then [BACKSLASH; DQUOTE]
  else if c =? TAB then [BACKSLASH; 116]
  else [c].

(** Number of line breaks of a text. *)
Definition line_breaks (s : jsstring) : nat := count_occ N.eq_dec s LF.

(** ASCII case-insensitive comparison. *)
Definition ascii_upper (c : N) : N :=
  if (97 <=? c) && (c <=? 122) then c - 32 else c.

Definition same_ignoring_case (a b : jsstring) : Prop :=
  List.map ascii_upper a = List.map ascii_upper b.

Definition is_ascii_letter (c : N) : Prop :=
  65 <= c <= 90 \/ 97 <= c <= 122.

(** The last [n] elements of a list (all of it when it is shorter). *)
Definition trailing (A : Type) (n : nat) (l : list A) : list A :=
  skipn (List.length l - n) l.

(** No position of the text starts a run of 100 base64 units. *)
Fixpoint short_runs (s : jsstring) : bool :=
  match s with
  | [] => true
  | _ :: s' => (span is_base64 s <? 100)%nat && short_runs s'
  end.

(** The text holds no escape character, hence no inline-image sequence. *)
Definition no_escape (s : jsstring) : bool :=
  forallb (fun c => negb (c =? ESC)) s.

(** A sample below the 1 % threshold. *)
Definition low (p : probe) : Prop :=
  match p with
  | Active cpu => (cpu < 1)%Q
  | _ => False
  end.

Definition is_active (p : probe) : Prop :=
  match p with
  | Active _ => True
  | _ => False
  end.

(** The completion detector as a state machine over the samples: [lows]
    counts the consecutive low samples seen so far; the result is the
    number of samples taken when [Ready] is reached, if it is. *)
Fixpoint ready_after (lows : nat) (samples : list probe) : option nat :=
  match samples with
  | [] => None
  | NoProcess :: _ => Some 1%nat
  | ProbeFailure :: _ => Some 1%nat
  | Active cpu :: rest =>
      if Qle_bool 1 cpu then option_map S (ready_after 0 rest)
      else if (3 <=? S lows)%nat then Some 1%nat
      else option_map S (ready_after (S lows) rest)
  end.

(** The effects of a detector run that takes [n] samples: the samples are
    350 ms apart. *)
Fixpoint sampling (ttyPath : jsstring) (n : nat) : list event :=
  match n with
  | O => []
  | S O => [GetActiveProcess ttyPath]
  | S n' => GetActiveProcess ttyPath :: Sleep 350 :: sampling ttyPath n'
  end.

Definition sampled (ttyPath : jsstring) (n : nat) (w : world) : world :=
  {| hosts := hosts w; tty_opens := tty_opens w;
     probes := skipn n (probes w);
     log := log w ++ sampling ttyPath n |}.

Definition detector_run (ttyPath : jsstring) (n : nat) (w : world) : world :=
  {| hosts := hosts w; tty_opens := tty_opens w;
     probes := skipn n (probes w);
     log := log w ++ [OpenSync ttyPath] ++ sampling ttyPath n ++ [CloseSync] |}.

(** Every script of a trace addresses the session [r]. *)
Definition all_address (r : SessionRef) (l : list event) : Prop :=
  Forall (fun sc => script_target sc = r) (Index.scripts_of l).

(** A computation that, from a trace whose scripts all address [r], only
    reaches traces whose scripts all address [r]. *)
Definition addresses_only (r : SessionRef) (A : Type) (m : M A) : Prop :=
  forall w c w',
    m w = Some (c, w') -> all_address r (log w) -> all_address r (log w').

End Spec.

(** ** Concrete hosts and inputs used by the examples of Part II *)
Module Samples.

Import JS Bridge Effects.
Local Open Scope N_scope.

Definition session_001 : session :=
  {| tty := Some (lit "/dev/ttys001");
     contents := lit "make" ++ [LF] ++ lit "build ok" ++ [LF] ++ lit "$ ";
     is_processing := false;
     answers := true |}.

Definition session_005 : session :=
  {| tty := Some (lit "/dev/ttys005");
     contents := lit "focused" ++ [LF] ++ lit "% ";
     is_processing := false;
     answers := true |}.

(** A comparison that ignores the case of the letters a to z. *)
Definition same_ignoring_ascii_case (a b : jsstring) : bool :=
  eqb_string (map Spec.ascii_upper a) (map Spec.ascii_upper b).

(** A sample wording of the failure of a bridge call. *)
Definition command_failed (sc : script) (raised : jsstring) : jsstring :=
  lit "Command failed: osascript" ++ [LF] ++ lit "execution error: "
  ++ raised ++ [LF].

Definition unexpected_end (sc : script) : outcome :=
  ScriptError (lit "Command failed: osascript" ++ [LF]
               ++ lit "sh: unexpected EOF" ++ [LF]).

(** One window with two tabs; the focused session is /dev/ttys005. *)
Definition iterm : host :=
  {| running := true;
     windows := [[[session_005]; [session_001]]];
     current := Some session_005;
     same_text := same_ignoring_ascii_case;
     exec_message := command_failed;
     garbled := unexpected_end |}.

Definition idle_world : world :=
  {| hosts := repeat iterm 8; tty_opens := true; probes := [NoProcess];
     log := [] |}.

Definition no_arguments : Index.arguments :=
  {| Index.command := None; Index.ttyPath := None;
     Index.linesOfOutput := None; Index.letter := None;
     Index.filterBase64 := None |}.

Definition unknown_tty : jsstring := lit "/dev/ttys999".

Definition read_unknown : Index.arguments :=
  {| Index.command := None; Index.ttyPath := Some unknown_tty;
     Index.linesOfOutput := Some 5%Z; Index.letter := None;
     Index.filterBase64 := None |}.

(** The two sample sequences of the specification, in percent. *)
Definition samples_a : list probe :=
  [Active 5; Active (1 # 2); Active (1 # 2); Active (1 # 2)].

Definition samples_b : list probe :=
  [Active 5; Active (1 # 2); Active 5; Active (1 # 2); Active (1 # 2);
   Active (1 # 2)].

Definition busy_world (samples : list probe) : world :=
  {| hosts := repeat iterm 8; tty_opens := true; probes := samples;
     log := [] |}.

(** U+0131, the dotless i. *)
Definition dotless_i : jsstring := [305].

Definition single_line : jsstring :=
  lit "echo 'a\b'" ++ [DQUOTE; 233; TAB].

(** An inline-image sequence as imgcat prints it: the control prefix, a
    base64 payload of 150 units with its padding, and a line break. *)
Definition image_head : jsstring := ESC :: lit "]1337;File=x:".

Definition image_payload : jsstring := repeat 65 150.

Definition image_tail : jsstring := [LF].

End Samples.

(** ** Further vocabulary: the busy poll, the decoder, the trace *)
Module Props.

Import JS Regex Bridge Effects.
Local Open Scope N_scope.

(** The busy check on host [h] prints the flag [b]. *)
Definition reports_busy (target : option jsstring) (b : bool) (h : host)
  : Prop :=
  run_script h (CommandExecutor.processing_script target)
  = Stdout (boolean_text b ++ [LF]).

(** The effects of a busy poll that finds the session busy [k] times. *)
Fixpoint polling (sc : script) (k : nat) : list event :=
  match k with
  | O => [Osascript sc]
  | S k' => Osascript sc :: Sleep 100 :: polling sc k'
  end.

(** A unit that the single-line encoder leaves as it is. *)
Definition plain (c : N) : bool :=
  (32 <=? c) && (c <=? 126) && negb (c =? BACKSLASH) && negb (c =? DQUOTE)
  && negb (c =? SQUOTE).

(** Value of a lower-case hexadecimal digit. *)
Definition hexval (d : N) : N :=
  if d <? 58 then d - 48 else d - 87.

(** Reads a single-line encoding back: a doubled backslash and an escaped
    double quote lose their backslash, the close-escape-reopen sequence is
    one single quote, and a numeric escape is the unit it names. *)
Fixpoint decode (s : jsstring) : option jsstring :=
  match s with
  | [] => Some []
  | c :: s1 =>
      if c =? BACKSLASH then
        match s1 with
        | [] => None
        | d :: s2 =>
            if d =? 117 then
              match s2 with
              | h3 :: h2 :: h1 :: h0 :: s3 =>
                  option_map
                    (cons (4096 * hexval h3 + 256 * hexval h2
                           + 16 * hexval h1 + hexval h0))
                    (decode s3)
              | _ => None
              end
            else option_map (cons d) (decode s2)
        end
      else if c =? SQUOTE then
        match s1 with
        | b :: q1 :: q2 :: s2 =>
            if (b =? BACKSLASH) && (q1 =? SQUOTE) && (q2 =? SQUOTE)
            then option_map (cons SQUOTE) (decode s2)
            else None
        | _ => None
        end
      else option_map (cons c) (decode s1)
  end.

(** The new events of a run: what the trace gained. *)
Definition gained (w w' : world) (events : list event) : Prop :=
  log w' = log w ++ events.

(** Number of tty files opened, and closed, in a trace. *)
Fixpoint opened (l : list event) : nat :=
  match l with
  | [] => O
  | OpenSync _ :: l' => S (opened l')
  | _ :: l' => opened l'
  end.

Fixpoint closed (l : list event) : nat :=
  match l with
  | [] => O
  | CloseSync :: l' => S (closed l')
  | _ :: l' => closed l'
  end.

(** A sample at or above the 1 % threshold. *)
Definition high (p : probe) : Prop :=
  match p with
  | Active cpu => (1 <= cpu)%Q
  | _ => False
  end.

End Props.

(** ** The stand-alone reader script (readTtyContents) *)
Module ReadTtyContents.

Import JS Bridge Effects.
Local Open Scope js_scope.

(** [async function readTtyContents(ttyPath = '/dev/ttys001')]: the search
    script raises when no session has the path, and every failure comes
    back as a text.  The [console.log] calls are left out. *)
Definition readTtyContents (ttyPath : option jsstring) : M jsstring :=
  let ttyPath :=
    match ttyPath with
    | Some p => p
    | None => lit "/dev/ttys001"
    end in
  try_catch
    (stdout <- osascript (SearchByPath (escape_tty ttyPath) GetContents
                            RaiseError) ;;
     ret (trim stdout))
    (fun message => ret (lit "Error: " ++ message)).

End ReadTtyContents.

(** ** Further concrete inputs *)
Module Cases.

Import JS Bridge Effects.
Local Open Scope N_scope.

(** A control request whose letter is the digit 1. *)
Definition digit_letter : Index.arguments :=
  {| Index.command := None; Index.ttyPath := None;
     Index.linesOfOutput := None; Index.letter := Some (lit "1");
     Index.filterBase64 := None |}.

(** The application is not running. *)
Definition stopped : host :=
  {| running := false; windows := []; current := None;
     same_text := Samples.same_ignoring_ascii_case;
     exec_message := Samples.command_failed;
     garbled := Samples.unexpected_end |}.

Definition stopped_world : world :=
  {| hosts := [stopped]; tty_opens := true; probes := []; log := [] |}.

(** The session on /dev/ttys001 is still running a command. *)
Definition session_001_busy : session :=
  {| tty := Some (lit "/dev/ttys001");
     contents := lit "make" ++ [LF];
     is_processing := true;
     answers := true |}.

Definition iterm_busy : host :=
  {| running := true;
     windows := [[[Samples.session_005]; [session_001_busy]]];
     current := Some Samples.session_005;
     same_text := Samples.same_ignoring_ascii_case;
     exec_message := Samples.command_failed;
     garbled := Samples.unexpected_end |}.

(** The write, two busy answers, the idle answer and the final read. *)
Definition busy_twice_world : world :=
  {| hosts := [Samples.iterm; iterm_busy; iterm_busy; Samples.iterm;
               Samples.iterm];
     tty_opens := true; probes := [NoProcess]; log := [] |}.

End Cases.

(* ================================================================== *)
(** * Part II: the properties                                          *)
(* ================================================================== *)

Import JS.
Local Open Scope list_scope.

(** ** Lists and code units *)

Lemma flat_map_compose (A B C : Type) (f : A -> list B) (g : B -> list C)
  (l : list A) :
  flat_map g (flat_map f l) = flat_map (fun x => flat_map g (f x)) l.
Proof.
  induction l as [|x l IH]; simpl; [reflexivity|].
  now rewrite flat_map_app, IH.
Qed.

Lemma flat_map_pointwise (A B : Type) (f g : A -> list B) (l : list A) :
  Forall (fun x => f x = g x) l -> flat_map f l = flat_map g l.
Proof.
  induction 1 as [|x l Hx _ IH]; simpl; [reflexivity|].
  now rewrite Hx, IH.
Qed.

(** Linear arithmetic with division and remainder by constants. *)
Ltac lia_div := zify; Z.to_euclidean_division_equations; lia.

(** ** Hexadecimal rendering *)

Lemma log2_at_least_4 (n : N) : (16 <= n)%N -> exists k, N.to_nat (N.log2 n) = (4 + k)%nat.
Proof.
  intros H. exists (N.to_nat (N.log2 n) - 4)%nat.
  assert (N.log2 16 <= N.log2 n)%N by now apply N.log2_le_mono.
  change (N.log2 16) with 4%N in *. lia.
Qed.

Lemma toString16_padded (c : N) :
  (c < 65536)%N -> padStart 4 48%N (toString16 c) = Spec.hex4 c.
Proof.
  intros Hc. unfold toString16, Spec.hex4.
  destruct (N.ltb_spec c 16) as [H16|H16].
  - simpl toString16_aux. apply N.ltb_lt in H16 as E. rewrite E.
    unfold padStart; simpl.
    rewrite (N.div_small c 4096), (N.div_small c 256), (N.div_small c 16), (N.mod_small c 16) by lia.
    reflexivity.
  - destruct (log2_at_least_4 H16) as [k ->].
    cbn [Nat.add toString16_aux].
    assert (E : (c <? 16)%N = false) by now apply N.ltb_ge. rewrite E.
    rewrite !N.Div0.div_div. change (16 * 16)%N with 256%N. change (256 * 16)%N with 4096%N.
    destruct (N.ltb_spec (c / 16) 16) as [H1|H1].
    + unfold padStart; simpl.
      replace (c / 4096)%N with 0%N by lia_div.
      replace (c / 256 mod 16)%N with 0%N by lia_div.
      rewrite (N.mod_small (c / 16)) by lia. reflexivity.
    + destruct (N.ltb_spec (c / 256) 16) as [H2|H2].
      * unfold padStart; simpl.
        replace (c / 4096)%N with 0%N by lia_div.
        rewrite (N.mod_small (c / 256)) by lia. reflexivity.
      * assert (E3 : (c / 4096 <? 16)%N = true) by (apply N.ltb_lt; lia_div).
        rewrite E3. unfold padStart; simpl. reflexivity.
Qed.



(** ** Script Encoder, single line *)

Lemma includes_unit_false (c : N) (s : jsstring) :
  includes [c] s = false <-> ~ In c s.
Proof.
  induction s as [|x s IH]; simpl.
  - tauto.
  - destruct (N.eqb_spec c x) as [->|Hne].
    + split; [discriminate|]. intros H. exfalso. apply H. now left.
    + rewrite IH. split.
      * intros H [E|HI]; [now apply Hne|now apply H].
      * intros H HI. apply H. now right.
Qed.

Lemma single_line_passes (c : N) :
  (c < 65536)%N ->
  flat_map
    (fun x =>
       flat_map
         (fun y =>
            flat_map
              (fun z => if CommandExecutor.not_printable z
                        then CommandExecutor.unicode_escape z else [z])
              (if (y =? SQUOTE)%N then lit "'\''" else [y]))
         (if (x =? DQUOTE)%N then [BACKSLASH; DQUOTE] else [x]))
    (if (c =? BACKSLASH)%N then [BACKSLASH; BACKSLASH] else [c])
  = Spec.escaped_unit c.
Proof.
  intros Hc. unfold Spec.escaped_unit, BACKSLASH, DQUOTE, SQUOTE.
  destruct (N.eqb_spec c 92) as [->|H1]; [reflexivity|].
  cbn [flat_map app].
  destruct (N.eqb_spec c 34) as [->|H2]; [reflexivity|].
  cbn [flat_map app].
  destruct (N.eqb_spec c 39) as [->|H3]; [reflexivity|].
  cbn [flat_map app]. unfold CommandExecutor.not_printable.
  destruct ((32 <=? c)%N && (c <=? 126)%N); cbn [negb]; [reflexivity|].
  unfold CommandExecutor.unicode_escape.
  rewrite toString16_padded by assumption. reflexivity.
Qed.



Example escapeForAppleScript_sample :
  CommandExecutor.escapeForAppleScript Samples.single_line
  = lit "echo '\''a\\b'\''\" ++ [DQUOTE] ++ lit "\u00e9\u0009".
Proof. reflexivity. Qed.

(** ** Script Encoder, several lines *)

Lemma split_not_nil (sep : N) (s : jsstring) : split sep s <> [].
Proof.
  destruct s as [|c s]; simpl; [discriminate|].
  destruct (c =? sep)%N; [discriminate|].
  destruct (split sep s); discriminate.
Qed.

Lemma split_length (s : jsstring) :
  List.length (split LF s) = S (Spec.line_breaks s).
Proof.
  unfold Spec.line_breaks.
  induction s as [|c s IH]; [reflexivity|].
  cbn [split count_occ].
  destruct (N.eqb_spec c LF) as [->|Hne].
  - destruct (N.eq_dec LF LF) as [_|F]; [|now elim F].
    cbn [List.length]. now rewrite IH.
  - destruct (N.eq_dec c LF) as [E|_]; [now elim Hne|].
    destruct (split LF s) as [|l ls] eqn:E; [now elim (@split_not_nil LF s)|].
    exact IH.
Qed.

Lemma join_cons (sep l : jsstring) (ls : list jsstring) :
  ls <> [] -> join sep (l :: ls) = l ++ sep ++ join sep ls.
Proof. destruct ls; [now intros H; elim H|reflexivity]. Qed.

Lemma join_split (s : jsstring) : join [LF] (split LF s) = s.
Proof.
  induction s as [|c s IH]; [reflexivity|].
  cbn [split].
  destruct (N.eqb_spec c LF) as [->|Hne].
  - rewrite join_cons by apply split_not_nil. now rewrite IH.
  - destruct (split LF s) as [|l ls] eqn:E; [now elim (@split_not_nil LF s)|].
    destruct ls as [|l' ls].
    + cbn [join] in *. now rewrite IH.
    + rewrite join_cons by discriminate. rewrite join_cons in IH by discriminate.
      now rewrite <- IH.
Qed.

Lemma prepare_fold (lines : list jsstring) (start : jsstring) :
  fold_left (fun applescriptString line =>
               applescriptString ++ CommandExecutor.RETURN_JOIN
               ++ CommandExecutor.quoted line) lines start
  = start ++ flat_map (fun line => CommandExecutor.RETURN_JOIN
                                   ++ CommandExecutor.quoted line) lines.
Proof.
  revert start. induction lines as [|l ls IH]; intros start;
    cbn [fold_left flat_map].
  - now rewrite app_nil_r.
  - rewrite IH. now rewrite <- !app_assoc.
Qed.

Lemma escapeAppleScriptString_units (str : jsstring) :
  CommandExecutor.escapeAppleScriptString str = flat_map Spec.line_unit str.
Proof.
  unfold CommandExecutor.escapeAppleScriptString, replace_unit.
  rewrite !flat_map_compose. apply flat_map_pointwise.
  apply Forall_forall. intros c _. unfold Spec.line_unit, BACKSLASH, DQUOTE, TAB.
  destruct (N.eqb_spec c 92) as [->|H1]; [reflexivity|].
  cbn [flat_map app].
  destruct (N.eqb_spec c 34) as [->|H2]; [reflexivity|].
  cbn [flat_map app].
  destruct (N.eqb_spec c 9) as [->|H3]; reflexivity.
Qed.

Lemma read_text (line : jsstring) :
  forall acc texts joins rest,
    Host.read (Host.InText acc) texts joins
      (flat_map Spec.line_unit line ++ DQUOTE :: rest)
    = Host.read Host.AfterText ((rev acc ++ line) :: texts) joins rest.
Proof.
  induction line as [|c line IH]; intros acc texts joins rest.
  - cbn. now rewrite app_nil_r.
  - cbn [flat_map]. rewrite <- app_assoc. unfold Spec.line_unit at 1.
    unfold BACKSLASH, DQUOTE, TAB.
    destruct (N.eqb_spec c 92) as [->|H1];
      [cbn; rewrite IH; cbn; now rewrite <- app_assoc|].
    destruct (N.eqb_spec c 34) as [->|H2];
      [cbn; rewrite IH; cbn; now rewrite <- app_assoc|].
    destruct (N.eqb_spec c 9) as [->|H3];
      [cbn; rewrite IH; cbn; now rewrite <- app_assoc|].
    cbn [app Host.read]. unfold BACKSLASH, DQUOTE.
    apply N.eqb_neq in H1, H2. rewrite H1, H2.
    rewrite IH. cbn. now rewrite <- app_assoc.
Qed.

Lemma read_quoted (line : jsstring) texts joins rest :
  Host.read Host.ExpectQuote texts joins (CommandExecutor.quoted line ++ rest)
  = Host.read Host.AfterText (line :: texts) joins rest.
Proof.
  unfold CommandExecutor.quoted. rewrite escapeAppleScriptString_units.
  cbn [app Host.read]. change (DQUOTE =? DQUOTE)%N with true. cbv iota.
  rewrite <- app_assoc. cbn [app]. now rewrite read_text.
Qed.

Lemma read_join texts joins rest :
  Host.read Host.AfterText texts joins (CommandExecutor.RETURN_JOIN ++ rest)
  = Host.read Host.ExpectQuote texts (S joins) rest.
Proof. reflexivity. Qed.

Lemma read_lines (lines : list jsstring) :
  forall texts joins,
    Host.read Host.AfterText texts joins
      (flat_map (fun line => CommandExecutor.RETURN_JOIN
                             ++ CommandExecutor.quoted line) lines)
    = Some (rev texts ++ lines, (joins + List.length lines)%nat).
Proof.
  induction lines as [|l ls IH]; intros texts joins.
  - cbn. now rewrite app_nil_r, Nat.add_0_r.
  - cbn [flat_map]. rewrite <- app_assoc, read_join, read_quoted, IH.
    cbn [rev List.length]. rewrite <- app_assoc. cbn [app].
    f_equal. f_equal. lia.
Qed.

(** C6.  For a text with k line breaks the multi-line encoder yields an
    expression with exactly k joins; a host that unescapes each quoted
    text reads back exactly the lines of the text, and evaluates the
    expression to those lines joined by its own line break. *)
Theorem prepareMultilineCommand_round_trip (str : jsstring) :
  Host.parse (CommandExecutor.prepareMultilineCommand str)
    = Some (split LF str, Spec.line_breaks str)
  /\ List.length (split LF str) = S (Spec.line_breaks str)
  /\ Host.evaluate (CommandExecutor.prepareMultilineCommand str)
     = Some (join [CR] (split LF str))
  /\ join [LF] (split LF str) = str.
Proof.
  assert (P : Host.parse (CommandExecutor.prepareMultilineCommand str)
              = Some (split LF str, Spec.line_breaks str)).
  { unfold Host.parse, CommandExecutor.prepareMultilineCommand.
    pose proof (split_length str) as HL.
    destruct (split LF str) as [|line0 lines] eqn:E;
      [now elim (@split_not_nil LF str)|].
    rewrite prepare_fold, read_quoted, read_lines.
    cbn [rev app List.length] in *. repeat f_equal. lia. }
  repeat split.
  - exact P.
  - apply split_length.
  - unfold Host.evaluate. now rewrite P.
  - apply join_split.
Qed.

(** ** Control-Character Sender *)

Lemma eqb_string_spec (a b : jsstring) : reflect (a = b) (eqb_string a b).
Proof.
  unfold eqb_string. destruct (list_eq_dec N.eq_dec a b); now constructor.
Qed.

Lemma upper_unit_of_ascii_upper (c d : N) :
  Spec.ascii_upper c = d -> (65 <= d <= 90)%N -> upper_unit c = d.
Proof.
  unfold Spec.ascii_upper, upper_unit. intros E Hd.
  destruct ((97 <=? c)%N && (c <=? 122)%N); [exact E|].
  subst d.
  destruct (N.eqb_spec c 305); [lia|].
  destruct (N.eqb_spec c 383); [lia|reflexivity].
Qed.

Lemma toUpperCase_of_ascii_upper (s t : jsstring) :
  List.map Spec.ascii_upper s = t ->
  Forall (fun d => (65 <= d <= 90)%N) t ->
  toUpperCase s = t.
Proof.
  revert t. induction s as [|c s IH]; intros t E Ht.
  - exact E.
  - destruct t as [|d t]; [discriminate|].
    cbn [List.map] in E. injection E as E1 E2.
    inversion Ht as [|? ? Hd Ht']; subst.
    cbn [toUpperCase List.map]. f_equal.
    + now apply upper_unit_of_ascii_upper.
    + now apply IH.
Qed.

Lemma upper_unit_ascii (c : N) :
  (c < 128)%N -> upper_unit c = Spec.ascii_upper c.
Proof.
  unfold upper_unit, Spec.ascii_upper. intros H.
  destruct ((97 <=? c)%N && (c <=? 122)%N); [reflexivity|].
  destruct (N.eqb_spec c 305); [lia|].
  destruct (N.eqb_spec c 383); [lia|reflexivity].
Qed.

Lemma toUpperCase_ascii (s : jsstring) :
  Forall (fun c => (c < 128)%N) s -> toUpperCase s = List.map Spec.ascii_upper s.
Proof.
  induction 1 as [|c s Hc _ IH]; [reflexivity|].
  cbn [toUpperCase List.map]. f_equal; [now apply upper_unit_ascii|exact IH].
Qed.

Lemma ascii_upper_letter (c : N) :
  Spec.is_ascii_letter c ->
  (65 <= Spec.ascii_upper c <= 90)%N
  /\ ((65 <= c <= 90)%N -> Spec.ascii_upper c = c)
  /\ ((97 <= c <= 122)%N -> Spec.ascii_upper c = (c - 32)%N).
Proof.
  unfold Spec.is_ascii_letter, Spec.ascii_upper. intros H.
  destruct (N.leb_spec 97 c); destruct (N.leb_spec c 122); cbn [andb]; lia.
Qed.

Lemma control_code_escape (letter : jsstring) :
  toUpperCase letter = lit "ESC" \/ toUpperCase letter = lit "ESCAPE" ->
  SendControlCharacter.control_code letter = Some 27%N.
Proof.
  unfold SendControlCharacter.control_code. intros [E|E]; rewrite E; reflexivity.
Qed.

Lemma control_code_letter (c : N) :
  Spec.is_ascii_letter c ->
  SendControlCharacter.control_code [c] = Some (Spec.ascii_upper c - 64)%N.
Proof.
  intros H. destruct (ascii_upper_letter H) as (Hu & _ & _).
  unfold SendControlCharacter.control_code.
  assert (E : toUpperCase [c] = [Spec.ascii_upper c]).
  { apply toUpperCase_of_ascii_upper; [reflexivity|]. now constructor. }
  rewrite E.
  destruct (eqb_string_spec [Spec.ascii_upper c] (lit "]")) as [F|_].
  { injection F as F. change (N_of_ascii "]"%char) with 93%N in F. lia. }
  destruct (eqb_string_spec [Spec.ascii_upper c] (lit "ESCAPE")) as [F|_];
    [discriminate|].
  destruct (eqb_string_spec [Spec.ascii_upper c] (lit "ESC")) as [F|_];
    [discriminate|].
  cbn [orb is_single_AZ SendControlCharacter.charCodeAt0 nth].
  replace (65 <=? Spec.ascii_upper c)%N with true
    by (symmetry; apply N.leb_le; lia).
  replace (Spec.ascii_upper c <=? 90)%N with true
    by (symmetry; apply N.leb_le; lia).
  reflexivity.
Qed.

(** C4.  The sender maps the bracket to 29, the texts ESC and Escape in any
    letter case to 27, and a single letter A-Z in either case to the code
    of its upper-case form minus 64. *)
Theorem control_code_mapping :
  SendControlCharacter.control_code (lit "]") = Some 29%N
  /\ (forall letter,
        Spec.same_ignoring_case letter (lit "ESC")
        \/ Spec.same_ignoring_case letter (lit "Escape") ->
        SendControlCharacter.control_code letter = Some 27%N)
  /\ (forall c,
        Spec.is_ascii_letter c ->
        SendControlCharacter.control_code [c]
          = Some (Spec.ascii_upper c - 64)%N
        /\ (65 <= Spec.ascii_upper c <= 90)%N
        /\ ((65 <= c <= 90)%N -> Spec.ascii_upper c = c)
        /\ ((97 <= c <= 122)%N -> Spec.ascii_upper c = (c - 32)%N))
  /\ SendControlCharacter.control_code (lit "A") = Some 1%N
  /\ SendControlCharacter.control_code (lit "a") = Some 1%N
  /\ SendControlCharacter.control_code (lit "C") = Some 3%N
  /\ SendControlCharacter.control_code (lit "c") = Some 3%N
  /\ SendControlCharacter.control_code (lit "Z") = Some 26%N.
Proof.
  split; [reflexivity|]. split; [|split].
  - intros letter H. apply control_code_escape.
    destruct H as [H|H]; [left|right];
      (apply toUpperCase_of_ascii_upper; [exact H|];
       repeat constructor; cbv; discriminate).
  - intros c H. split; [now apply control_code_letter|].
    now apply ascii_upper_letter.
  - repeat split; reflexivity.
Qed.

Lemma control_code_mapping_witness :
  SendControlCharacter.control_code (lit "eSc") = Some 27%N
  /\ SendControlCharacter.control_code (lit "x") = Some 24%N.
Proof.
  destruct control_code_mapping as (_ & Hesc & Hletter & _).
  split.
  - apply Hesc. left. reflexivity.
  - apply (Hletter 120%N). right. lia.
Defined.

(** The code computed is the one transmitted, in a single bridge call. *)
Lemma send_transmits (targetTtyPath : option jsstring) (letter : jsstring)
  (controlCode : N) (w : Effects.world) (h : Bridge.host) hs :
  SendControlCharacter.control_code letter = Some controlCode ->
  Effects.hosts w = h :: hs ->
  exists r,
    SendControlCharacter.send targetTtyPath letter w
    = Some (r, Effects.emit_event
                 (Effects.Osascript
                    (SendControlCharacter.control_script
                       (Effects.truthy targetTtyPath) controlCode))
                 (Effects.next_host w)).
Proof.
  intros Hc Hh. unfold SendControlCharacter.send. rewrite Hc.
  unfold Effects.try_catch, Effects.bind, Effects.osascript. rewrite Hh.
  destruct (Bridge.run_script h _) as [text|message].
  - eexists. reflexivity.
  - repeat match goal with
           | |- context [if ?b then _ else _] => destruct b
           end; eexists; reflexivity.
Qed.

(** On ASCII input every letter the mapping does not name is refused, and
    refused before anything is sent. *)
Lemma send_rejects_ascii (targetTtyPath : option jsstring)
  (letter : jsstring) (w : Effects.world) :
  Forall (fun c => (c < 128)%N) letter ->
  letter <> lit "]" ->
  ~ Spec.same_ignoring_case letter (lit "ESC") ->
  ~ Spec.same_ignoring_case letter (lit "Escape") ->
  (forall c, Spec.is_ascii_letter c -> letter <> [c]) ->
  SendControlCharacter.control_code letter = None
  /\ SendControlCharacter.send targetTtyPath letter w
     = Some (Effects.Thrown SendControlCharacter.INVALID_LETTER, w).
Proof.
  intros Hascii Hb Hesc Hescape Hletter.
  assert (Hc : SendControlCharacter.control_code letter = None).
  { unfold SendControlCharacter.control_code.
    rewrite (toUpperCase_ascii Hascii).
    destruct (eqb_string_spec (List.map Spec.ascii_upper letter) (lit "]"))
      as [E|_].
    { exfalso. apply Hb.
      destruct letter as [|c [|c' l]]; try discriminate.
      injection E as E. change (N_of_ascii "]"%char) with 93%N in E.
      unfold Spec.ascii_upper in E.
      destruct (N.leb_spec 97 c); destruct (N.leb_spec c 122);
        cbn [andb] in E; try lia.
      all: now subst c. }
    destruct (eqb_string_spec (List.map Spec.ascii_upper letter) (lit "ESCAPE"))
      as [E|_]; [now elim Hescape|].
    destruct (eqb_string_spec (List.map Spec.ascii_upper letter) (lit "ESC"))
      as [E|_]; [now elim Hesc|].
    cbn [orb].
    destruct letter as [|c [|c' l]]; try reflexivity.
    cbn [List.map is_single_AZ].
    destruct (N.leb_spec 65 (Spec.ascii_upper c));
      destruct (N.leb_spec (Spec.ascii_upper c) 90); try reflexivity.
    exfalso. apply (Hletter c); [|reflexivity].
    unfold Spec.is_ascii_letter. unfold Spec.ascii_upper in *.
    destruct (N.leb_spec 97 c); destruct (N.leb_spec c 122);
      cbn [andb] in *; lia. }
  split; [exact Hc|].
  unfold SendControlCharacter.send. now rewrite Hc.
Qed.

(** C5.  The dotless i (U+0131) is no letter A-Z, is not the bracket and is
    not ESC or Escape, yet its upper-case form is I: the sender accepts it
    as Control-I and performs the bridge call. *)
Theorem send_accepts_dotless_i :
  Samples.dotless_i <> lit "]"
  /\ ~ Spec.same_ignoring_case Samples.dotless_i (lit "ESC")
  /\ ~ Spec.same_ignoring_case Samples.dotless_i (lit "Escape")
  /\ (forall c, Spec.is_ascii_letter c -> Samples.dotless_i <> [c])
  /\ SendControlCharacter.control_code Samples.dotless_i = Some 9%N
  /\ exists w',
       SendControlCharacter.send None Samples.dotless_i Samples.idle_world
         = Some (Effects.Normal tt, w')
       /\ Effects.log w'
          = [Effects.Osascript
               (Bridge.TellCurrent (Bridge.WriteAsciiCharacter 9%N))].
Proof.
  repeat split; try discriminate.
  - intros c Hc E. injection E as E. subst c.
    unfold Spec.is_ascii_letter in Hc. lia.
  - eexists. split; reflexivity.
Qed.

(** ** Buffer Reader: the trailing lines *)

Lemma slice_trailing (A : Type) (n : Z) (l : list A) :
  (0 < n)%Z -> slice (- n - 1) l = Spec.trailing (Z.to_nat n + 1) l.
Proof.
  intros Hn. unfold slice, Spec.trailing.
  replace (- n - 1 <? 0)%Z with true by (symmetry; apply Z.ltb_lt; lia).
  f_equal. lia.
Qed.

Lemma last_lines_trailing (n : Z) (buffer : jsstring) :
  (0 < n)%Z ->
  TtyOutputReader.last_lines (Some n) buffer
  = join [LF] (Spec.trailing (Z.to_nat n + 1) (split LF buffer)).
Proof.
  intros Hn. unfold TtyOutputReader.last_lines.
  destruct n as [|p|p]; try lia.
  now rewrite slice_trailing.
Qed.

Lemma trailing_all (A : Type) (n : nat) (l : list A) :
  (List.length l <= n)%nat -> Spec.trailing n l = l.
Proof.
  intros H. unfold Spec.trailing.
  replace (List.length l - n)%nat with 0%nat by lia. reflexivity.
Qed.

Lemma trailing_length (A : Type) (n : nat) (l : list A) :
  List.length (Spec.trailing n l) = Nat.min n (List.length l).
Proof. unfold Spec.trailing. rewrite length_skipn. lia. Qed.

Lemma trailing_suffix (A : Type) (n : nat) (l : list A) :
  exists front, l = front ++ Spec.trailing n l.
Proof.
  exists (firstn (List.length l - n) l). unfold Spec.trailing.
  now rewrite firstn_skipn.
Qed.

(** C8.  For a positive count N the read operation returns the last N+1
    lines of the buffer it retrieved, joined by line breaks, and the whole
    buffer when it has no more than N+1 lines; the filtering revision does
    the same on the filtered buffer. *)
Theorem call_returns_trailing_lines (n : Z) (ttyPath : option jsstring)
  (buffer : jsstring) (w w' : Effects.world) :
  (0 < n)%Z ->
  TtyOutputReader.retrieveBuffer ttyPath w = Some (Effects.Normal buffer, w') ->
  let lines := split LF buffer in
  let wanted := (Z.to_nat n + 1)%nat in
  TtyOutputReader.call (Some n) ttyPath w
    = Some (Effects.Normal (join [LF] (Spec.trailing wanted lines)), w')
  /\ List.length (Spec.trailing wanted lines)
     = Nat.min wanted (List.length lines)
  /\ (exists front, lines = front ++ Spec.trailing wanted lines)
  /\ ((List.length lines <= wanted)%nat ->
      TtyOutputReader.call (Some n) ttyPath w
        = Some (Effects.Normal buffer, w'))
  /\ TtyOutputReader.call_filtering (Some n) ttyPath (Some false) w
     = Some (Effects.Normal (join [LF] (Spec.trailing wanted lines)), w')
  /\ (forall flag, flag <> Some false ->
      TtyOutputReader.call_filtering (Some n) ttyPath flag w
      = Some (Effects.Normal
                (join [LF]
                   (Spec.trailing wanted
                      (split LF (TtyOutputReader.filterBase64Content buffer)))),
              w')).
Proof.
  intros Hn Hb lines wanted.
  assert (Hcall : TtyOutputReader.call (Some n) ttyPath w
    = Some (Effects.Normal (join [LF] (Spec.trailing wanted lines)), w')).
  { unfold TtyOutputReader.call, Effects.bind, Effects.ret. rewrite Hb.
    now rewrite last_lines_trailing. }
  split; [exact Hcall|].
  split; [apply trailing_length|].
  split; [apply trailing_suffix|].
  split.
  - intros Hshort. rewrite Hcall. subst lines.
    now rewrite trailing_all, join_split.
  - split.
    + unfold TtyOutputReader.call_filtering, Effects.bind, Effects.ret.
      rewrite Hb. now rewrite last_lines_trailing.
    + intros flag Hflag.
      unfold TtyOutputReader.call_filtering, Effects.bind, Effects.ret.
      rewrite Hb.
      destruct flag as [[|]|]; try (now elim Hflag);
        now rewrite last_lines_trailing.
Qed.

Lemma call_returns_trailing_lines_witness :
  (0 < 1)%Z
  /\ TtyOutputReader.call (Some 1%Z) (Some (lit "/dev/ttys001"))
       Samples.idle_world
     = Some (Effects.Normal (lit "build ok" ++ [LF] ++ lit "$"),
             Effects.emit_event
               (Effects.Osascript
                  (TtyOutputReader.buffer_script (Some (lit "/dev/ttys001"))))
               (Effects.next_host Samples.idle_world)).
Proof.
  split; [lia|].
  refine (proj1 (@call_returns_trailing_lines 1%Z (Some (lit "/dev/ttys001"))
                   (lit "make" ++ [LF] ++ lit "build ok" ++ [LF] ++ lit "$")
                   Samples.idle_world _ _ _)).
  - lia.
  - reflexivity.
Defined.

(** ** Buffer Reader: the payload filter *)

Import Regex.

Lemma backoff_first (A : Type) (k : jsstring -> option A) (s : jsstring)
  (lo n : nat) (r : A) :
  (lo <= n)%nat -> k (skipn n s) = Some r -> backoff k s lo n = Some r.
Proof.
  intros Hlo Hk. destruct n; cbn [backoff];
    (replace (_ <? lo)%nat with false by (symmetry; apply Nat.ltb_ge; lia));
    now rewrite Hk.
Qed.

Lemma backoff_below (A : Type) (k : jsstring -> option A) (s : jsstring)
  (lo n : nat) :
  (n < lo)%nat -> backoff k s lo n = None.
Proof.
  intros H. destruct n; cbn [backoff];
    now (replace (_ <? lo)%nat with true by (symmetry; apply Nat.ltb_lt; lia)).
Qed.

Lemma match_at_base64_short (s : jsstring) :
  (span is_base64 s < 100)%nat -> match_at base64Pattern s = None.
Proof.
  intros H. unfold match_at, base64Pattern. cbn [matches].
  now apply backoff_below.
Qed.

Lemma match_at_base64_long (s : jsstring) :
  (100 <= span is_base64 s)%nat ->
  let rest := skipn (span is_base64 s) s in
  match_at base64Pattern s
  = Some (skipn (Nat.min 2 (span (N.eqb 61) rest)) rest).
Proof.
  intros H rest. unfold match_at, base64Pattern. cbn [matches].
  apply backoff_first; [exact H|].
  apply backoff_first; [lia|reflexivity].
Qed.

Lemma span_all (p : N -> bool) (run rest : jsstring) :
  forallb p run = true ->
  span p (run ++ rest) = (List.length run + span p rest)%nat.
Proof.
  induction run as [|c run IH]; [reflexivity|].
  cbn [forallb app span List.length]. intros H.
  apply andb_true_iff in H as [Hc Hr]. rewrite Hc. now rewrite IH.
Qed.

Lemma span_closed (p : N -> bool) (s rest : jsstring) :
  s <> [] -> p (last s 0%N) = false -> span p (s ++ rest) = span p s.
Proof.
  induction s as [|c s IH]; [now intros H; elim H|]. intros _ Hlast.
  destruct s as [|c' s].
  - cbn in *. now rewrite Hlast.
  - cbn [app span]. destruct (p c); [|reflexivity].
    f_equal. apply IH; [discriminate|exact Hlast].
Qed.

Lemma replace_go_skip (r : re) (repl l1 l2 : jsstring) :
  replace_go r repl (List.length l1) (l1 ++ l2) = replace_go r repl 0 l2.
Proof. induction l1 as [|c l1 IH]; [reflexivity|exact IH]. Qed.

Lemma replace_go_match (r : re) (repl l1 post : jsstring) :
  l1 <> [] ->
  match_at r (l1 ++ post) = Some post ->
  replace_go r repl 0 (l1 ++ post) = repl ++ replace_go r repl 0 post.
Proof.
  destruct l1 as [|c l1]; [now intros H; elim H|]. intros _ Hm.
  cbn [app replace_go]. cbn [app] in Hm. rewrite Hm.
  cbn [List.length]. rewrite length_app.
  replace (S (List.length l1 + List.length post) - List.length post)%nat
    with (S (List.length l1)) by lia.
  now rewrite replace_go_skip.
Qed.

Lemma replace_base64_prefix (pre rest : jsstring) :
  Spec.short_runs pre = true ->
  is_base64 (last pre 0%N) = false ->
  replace_go base64Pattern TtyOutputReader.BASE64_PLACEHOLDER 0 (pre ++ rest)
  = pre ++ replace_go base64Pattern TtyOutputReader.BASE64_PLACEHOLDER 0 rest.
Proof.
  induction pre as [|c pre IH]; [reflexivity|]. intros Hs Hlast.
  cbn [Spec.short_runs] in Hs. apply andb_true_iff in Hs as [Hc Hs].
  apply Nat.ltb_lt in Hc.
  assert (Hm : match_at base64Pattern ((c :: pre) ++ rest) = None).
  { apply match_at_base64_short.
    rewrite span_closed; [exact Hc|discriminate|exact Hlast]. }
  cbn [app replace_go]. cbn [app] in Hm. rewrite Hm.
  f_equal. apply IH; [exact Hs|].
  destruct pre; [reflexivity|exact Hlast].
Qed.

Lemma replace_base64_short (post : jsstring) :
  Spec.short_runs post = true ->
  replace_go base64Pattern TtyOutputReader.BASE64_PLACEHOLDER 0 post = post.
Proof.
  induction post as [|c post IH]; [reflexivity|]. intros Hs.
  cbn [Spec.short_runs] in Hs. apply andb_true_iff in Hs as [Hc Hs].
  apply Nat.ltb_lt in Hc.
  cbn [replace_go]. rewrite (match_at_base64_short _ Hc).
  f_equal. now apply IH.
Qed.

Lemma match_at_padded_run (run post : jsstring) :
  forallb is_base64 run = true ->
  (100 <= List.length run)%nat ->
  match_at base64Pattern ((run ++ lit "==") ++ post) = Some post.
Proof.
  intros Hall Hlen.
  assert (Hspan : span is_base64 ((run ++ lit "==") ++ post) = List.length run).
  { rewrite <- app_assoc, span_all by exact Hall. cbn. lia. }
  pose proof (@match_at_base64_long ((run ++ lit "==") ++ post)) as Hm.
  rewrite Hspan in Hm. specialize (Hm Hlen). cbv zeta in Hm. rewrite Hm.
  rewrite <- app_assoc, skipn_app, skipn_all, Nat.sub_diag.
  cbn [app skipn lit List.map list_ascii_of_string span].
  change (N_of_ascii "="%char) with 61%N. cbn [N.eqb Pos.eqb].
  destruct (span (N.eqb 61) post); reflexivity.
Qed.

Lemma match_at_imgcat_needs_escape (c : N) (s : jsstring) :
  (c =? ESC)%N = false -> match_at imgcatPrefixPattern (c :: s) = None.
Proof.
  intros H. unfold match_at, imgcatPrefixPattern.
  cbn [Lit matches span]. rewrite N.eqb_sym, H. reflexivity.
Qed.

Lemma replace_imgcat_no_escape (s : jsstring) :
  Spec.no_escape s = true ->
  replace_all imgcatPrefixPattern TtyOutputReader.IMGCAT_PLACEHOLDER s = s.
Proof.
  unfold replace_all, Spec.no_escape.
  induction s as [|c s IH]; [reflexivity|]. cbn [forallb]. intros H.
  apply andb_true_iff in H as [Hc Hs]. apply negb_true_iff in Hc.
  cbn [replace_go]. rewrite (match_at_imgcat_needs_escape c s Hc).
  f_equal. now apply IH.
Qed.

(** The base64 pass alone, whatever the surrounding text holds. *)
Lemma replace_base64_run (pre run post : jsstring) :
  Spec.short_runs pre = true ->
  is_base64 (last pre 0%N) = false ->
  forallb is_base64 run = true ->
  (100 <= List.length run)%nat ->
  Spec.short_runs post = true ->
  replace_all base64Pattern TtyOutputReader.BASE64_PLACEHOLDER
    (pre ++ run ++ lit "==" ++ post)
  = pre ++ TtyOutputReader.BASE64_PLACEHOLDER ++ post.
Proof.
  intros Hpre Hlast Hrun Hlen Hpost. unfold replace_all.
  rewrite replace_base64_prefix by assumption. f_equal.
  rewrite app_assoc.
  rewrite replace_go_match.
  - now rewrite replace_base64_short.
  - destruct run; [cbn in Hlen; lia|discriminate].
  - now apply match_at_padded_run.
Qed.

(** C9, as amended.  A run of at least 100 base64 units (150 in
    particular) followed by its padding is replaced, padding included, by
    the one placeholder; surrounding text whose base64 runs are shorter
    than 100 units is kept unit for unit, provided it holds no escape
    character that could start an inline-image sequence.  Without that
    proviso the result is the image pass applied to the same text. *)
Theorem filterBase64Content_replaces_run (pre run post : jsstring) :
  Spec.short_runs pre = true ->
  is_base64 (last pre 0%N) = false ->
  forallb is_base64 run = true ->
  (100 <= List.length run)%nat ->
  Spec.short_runs post = true ->
  TtyOutputReader.filterBase64Content (pre ++ run ++ lit "==" ++ post)
  = replace_all imgcatPrefixPattern TtyOutputReader.IMGCAT_PLACEHOLDER
      (pre ++ TtyOutputReader.BASE64_PLACEHOLDER ++ post)
  /\ (Spec.no_escape pre = true -> Spec.no_escape post = true ->
      TtyOutputReader.filterBase64Content (pre ++ run ++ lit "==" ++ post)
      = pre ++ TtyOutputReader.BASE64_PLACEHOLDER ++ post).
Proof.
  intros Hpre Hlast Hrun Hlen Hpost.
  assert (H1 : TtyOutputReader.filterBase64Content
                 (pre ++ run ++ lit "==" ++ post)
               = replace_all imgcatPrefixPattern
                   TtyOutputReader.IMGCAT_PLACEHOLDER
                   (pre ++ TtyOutputReader.BASE64_PLACEHOLDER ++ post)).
  { unfold TtyOutputReader.filterBase64Content.
    now rewrite replace_base64_run. }
  split; [exact H1|]. intros Hn1 Hn2. rewrite H1.
  apply replace_imgcat_no_escape. unfold Spec.no_escape in *.
  rewrite !forallb_app, Hn1, Hn2. reflexivity.
Qed.

Lemma filterBase64Content_replaces_run_witness :
  TtyOutputReader.filterBase64Content
    (lit "img: " ++ repeat 65%N 150 ++ lit "==" ++ lit " done abc123")
  = lit "img: " ++ TtyOutputReader.BASE64_PLACEHOLDER ++ lit " done abc123".
Proof.
  refine (proj2 (@filterBase64Content_replaces_run (lit "img: ")
                   (repeat 65%N 150) (lit " done abc123") _ _ _ _ _) _ _);
    try reflexivity.
  apply Nat.leb_le. reflexivity.
Defined.

(** C9 as stated fails: the text around the run is not always kept.  When
    the run is the payload of an inline-image sequence, the image pass
    replaces the control prefix together with the placeholder just put in
    place of the run. *)
Lemma filterBase64Content_surrounding_text_counterexample :
  ~ (forall pre run post : jsstring,
       Spec.short_runs pre = true ->
       is_base64 (last pre 0%N) = false ->
       forallb is_base64 run = true ->
       List.length run = 150%nat ->
       Spec.short_runs post = true ->
       TtyOutputReader.filterBase64Content (pre ++ run ++ lit "==" ++ post)
       = pre ++ TtyOutputReader.BASE64_PLACEHOLDER ++ post).
Proof.
  intros H.
  specialize (H Samples.image_head Samples.image_payload Samples.image_tail
                eq_refl eq_refl eq_refl eq_refl eq_refl).
  vm_compute in H. discriminate H.
Qed.

Example filterBase64Content_inline_image :
  TtyOutputReader.filterBase64Content
    (Samples.image_head ++ Samples.image_payload ++ lit "=="
     ++ Samples.image_tail)
  = TtyOutputReader.IMGCAT_PLACEHOLDER.
Proof. vm_compute. reflexivity. Qed.

(** ** Completion Detector *)

Import Effects.

Lemma ready_after_positive (samples : list probe) :
  forall lows n, Spec.ready_after lows samples = Some n -> n <> 0%nat.
Proof.
  induction samples as [|p samples IH]; intros lows n; cbn [Spec.ready_after].
  - discriminate.
  - destruct p as [| |cpu]; try (intros [= <-]; discriminate).
    destruct (Qle_bool 1 cpu).
    + destruct (Spec.ready_after 0 samples); intros [= <-]; discriminate.
    + destruct (3 <=? S lows)%nat; [intros [= <-]; discriminate|].
      destruct (Spec.ready_after (S lows) samples); intros [= <-]; discriminate.
Qed.

Lemma sampled_one (ttyPath : jsstring) (w : world) :
  emit_event (GetActiveProcess ttyPath) (next_probe w)
  = Spec.sampled ttyPath 1 w.
Proof. destruct w as [hs op ps lg]. destruct ps; reflexivity. Qed.

Lemma sampled_step (ttyPath : jsstring) (n : nat) (w : world) :
  n <> 0%nat ->
  Spec.sampled ttyPath n
    (emit_event (Sleep 350)
       (emit_event (GetActiveProcess ttyPath) (next_probe w)))
  = Spec.sampled ttyPath (S n) w.
Proof.
  intros Hn. destruct w as [hs op ps lg]. destruct n as [|n]; [now elim Hn|].
  unfold Spec.sampled, emit_event, next_probe. cbn [hosts tty_opens probes log].
  f_equal.
  - destruct ps; [now rewrite !skipn_nil|reflexivity].
  - rewrite <- !app_assoc. reflexivity.
Qed.

Lemma debounce_threshold (lows : nat) :
  (lows < 3)%nat ->
  (1000 <=? 350 * Z.of_nat lows + 350)%Z = (3 <=? S lows)%nat.
Proof.
  intros H.
  destruct lows as [|[|[|lows]]]; try reflexivity. lia.
Qed.

(** The loop of the source follows the state machine: the accumulated
    time is 350 ms per consecutive low sample. *)
Lemma debounce_loop_refines (ttyPath : jsstring) (samples : list probe) :
  forall fuel lows w,
    probes w = samples ->
    (List.length samples < fuel)%nat ->
    (lows < 3)%nat ->
    CommandExecutor.debounce_loop fuel ttyPath (350 * Z.of_nat lows) w
    = match Spec.ready_after lows samples with
      | Some n => Some (Normal true, Spec.sampled ttyPath n w)
      | None => None
      end.
Proof.
  induction samples as [|p samples IH]; intros fuel lows w Hp Hfuel Hlows;
    (destruct fuel as [|fuel]; [cbn in Hfuel; lia|]);
    cbn [CommandExecutor.debounce_loop Spec.ready_after];
    unfold bind at 1, CommandExecutor.probe_once, try_catch, bind at 1,
      getActiveProcess; rewrite Hp.
  - reflexivity.
  - assert (Hnext : probes (emit_event (Sleep 350)
              (emit_event (GetActiveProcess ttyPath) (next_probe w)))
              = samples).
    { destruct w; cbn in *. now subst. }
    cbn [List.length] in Hfuel.
    destruct p as [| |cpu].
    + unfold ret. now rewrite sampled_one.
    + unfold ret. now rewrite sampled_one.
    + unfold CommandExecutor.below_threshold.
      destruct (Qle_bool 1 cpu); cbn [negb].
      * unfold ret at 1, bind, sleep, emit.
        pose proof (IH fuel 0%nat _ Hnext ltac:(lia) ltac:(lia)) as E0.
        change (350 * Z.of_nat 0)%Z with 0%Z in E0. rewrite E0. clear E0.
        destruct (Spec.ready_after 0 samples) as [n|] eqn:E; [|reflexivity].
        cbn [option_map]. rewrite sampled_step; [reflexivity|].
        now apply ready_after_positive in E.
      * rewrite debounce_threshold by assumption.
        destruct (3 <=? S lows)%nat eqn:E3.
        { unfold ret. now rewrite sampled_one. }
        apply Nat.leb_gt in E3.
        unfold ret at 1, bind, sleep, emit.
        replace (350 * Z.of_nat lows + 350)%Z with (350 * Z.of_nat (S lows))%Z
          by lia.
        rewrite (IH fuel (S lows) _ Hnext) by lia.
        destruct (Spec.ready_after (S lows) samples) as [n|] eqn:E;
          [|reflexivity].
        cbn [option_map]. rewrite sampled_step; [reflexivity|].
        now apply ready_after_positive in E.
Qed.

Lemma detector_run_sampled (ttyPath : jsstring) (n : nat) (w : world) :
  emit_event CloseSync (Spec.sampled ttyPath n (emit_event (OpenSync ttyPath) w))
  = Spec.detector_run ttyPath n w.
Proof.
  destruct w as [hs op ps lg].
  unfold Spec.detector_run, Spec.sampled, emit_event.
  cbn [hosts tty_opens probes log]. f_equal. now rewrite <- !app_assoc.
Qed.

Lemma isWaitingForUserInput_refines (ttyPath : jsstring) (w : world) :
  tty_opens w = true ->
  CommandExecutor.isWaitingForUserInput ttyPath w
  = match Spec.ready_after 0 (probes w) with
    | Some n => Some (Normal true, Spec.detector_run ttyPath n w)
    | None => None
    end.
Proof.
  intros Hopen. unfold CommandExecutor.isWaitingForUserInput.
  unfold finally_return, try_catch, bind at 1, openSync. rewrite Hopen.
  change 0%Z with (350 * Z.of_nat 0)%Z.
  rewrite (@debounce_loop_refines ttyPath (probes w)
             (S (List.length (probes w))) 0 (emit_event (OpenSync ttyPath) w));
    [|now destruct w|lia|lia].
  destruct (Spec.ready_after 0 (probes w)) as [n|]; [|reflexivity].
  unfold closeSync, emit. now rewrite detector_run_sampled.
Qed.

Lemma isWaitingForUserInput_unopened (ttyPath : jsstring) (w : world) :
  tty_opens w = false ->
  CommandExecutor.isWaitingForUserInput ttyPath w
  = Some (Normal true, emit_event (OpenSync ttyPath) w).
Proof.
  intros Hopen. unfold CommandExecutor.isWaitingForUserInput.
  unfold finally_return, try_catch, bind at 1, openSync. now rewrite Hopen.
Qed.

Lemma below_threshold_low (cpu : Q) :
  Qle_bool 1 cpu = false -> Spec.low (Active cpu).
Proof.
  intros H. cbn. apply Qnot_le_lt. intros Hle.
  apply Qle_bool_iff in Hle. congruence.
Qed.

(** Readiness over samples of running processes needs three low samples
    in a row, counting those already seen. *)
Lemma ready_after_three_lows (samples : list probe) :
  forall lows n,
    Spec.ready_after lows samples = Some n ->
    Forall Spec.is_active (firstn n samples) ->
    (3 <= n + lows)%nat
    /\ Forall Spec.low (skipn (n - 3) (firstn n samples)).
Proof.
  induction samples as [|p samples IH]; intros lows n;
    cbn [Spec.ready_after]; [discriminate|].
  destruct p as [| |cpu].
  - intros [= <-] H. inversion H as [|? ? F]. destruct F.
  - intros [= <-] H. inversion H as [|? ? F]. destruct F.
  - destruct (Qle_bool 1 cpu) eqn:Hcpu.
    + destruct (Spec.ready_after 0 samples) as [n'|] eqn:E; [|discriminate].
      intros [= <-] H. cbn [firstn] in *. inversion H as [|? ? _ H']; subst.
      destruct (IH _ _ E H') as [Hn Hl]. split; [lia|].
      replace (S n' - 3)%nat with (S (n' - 3)) by lia. exact Hl.
    + apply below_threshold_low in Hcpu.
      destruct (3 <=? S lows)%nat eqn:E3.
      * intros [= <-] _. apply Nat.leb_le in E3. split; [lia|].
        cbn. now constructor.
      * destruct (Spec.ready_after (S lows) samples) as [n'|] eqn:E;
          [|discriminate].
        intros [= <-] H. cbn [firstn] in *. inversion H as [|? ? _ H']; subst.
        destruct (IH _ _ E H') as [Hn Hl]. split; [lia|].
        destruct (Nat.le_gt_cases (S n') 3) as [Hs|Hs].
        { replace (S n' - 3)%nat with 0%nat by lia.
          replace (n' - 3)%nat with 0%nat in Hl by lia.
          cbn [skipn] in *. now constructor. }
        { replace (S n' - 3)%nat with (S (n' - 3)) by lia. exact Hl. }
Qed.

(** C3.  With the tty open, the detector is the debounce state machine:
    it returns after exactly the number of samples the machine needs, the
    samples 350 ms apart.  Over samples of running processes that number
    is at least three and the last three samples are below 1 %; a sample
    at or above 1 % puts the accumulated time back to zero; a probe that
    finds no process ends the wait at once. *)
Theorem detector_debounce (ttyPath : jsstring) (w : world) :
  tty_opens w = true ->
  CommandExecutor.isWaitingForUserInput ttyPath w
  = match Spec.ready_after 0 (probes w) with
    | Some n => Some (Normal true, Spec.detector_run ttyPath n w)
    | None => None
    end
  /\ (forall n,
        Spec.ready_after 0 (probes w) = Some n ->
        Forall Spec.is_active (firstn n (probes w)) ->
        (3 <= n)%nat
        /\ Forall Spec.low (skipn (n - 3) (firstn n (probes w))))
  /\ (forall cpu rest belowThresholdTime,
        probes w = Active cpu :: rest ->
        (1 <= cpu)%Q ->
        CommandExecutor.probe_once ttyPath belowThresholdTime w
        = Some (Normal (CommandExecutor.Continue 0),
                emit_event (GetActiveProcess ttyPath) (next_probe w)))
  /\ (forall cpu rest belowThresholdTime,
        probes w = Active cpu :: rest ->
        (cpu < 1)%Q ->
        CommandExecutor.probe_once ttyPath belowThresholdTime w
        = Some (Normal
                  (if (1000 <=? belowThresholdTime + 350)%Z
                   then CommandExecutor.Return true
                   else CommandExecutor.Continue (belowThresholdTime + 350)),
                emit_event (GetActiveProcess ttyPath) (next_probe w)))
  /\ (forall rest,
        probes w = NoProcess :: rest ->
        CommandExecutor.isWaitingForUserInput ttyPath w
        = Some (Normal true, Spec.detector_run ttyPath 1 w)).
Proof.
  intros Hopen.
  pose proof (isWaitingForUserInput_refines ttyPath w Hopen) as Href.
  split; [exact Href|]. split; [|split; [|split]].
  - intros n Hn Hact.
    destruct (ready_after_three_lows _ _ Hn Hact) as [H3 Hl].
    split; [lia|exact Hl].
  - intros cpu rest b Hp Hcpu.
    unfold CommandExecutor.probe_once, try_catch, bind, getActiveProcess.
    rewrite Hp. unfold CommandExecutor.below_threshold.
    apply Qle_bool_iff in Hcpu. now rewrite Hcpu.
  - intros cpu rest b Hp Hcpu.
    unfold CommandExecutor.probe_once, try_catch, bind, getActiveProcess.
    rewrite Hp. unfold CommandExecutor.below_threshold.
    destruct (Qle_bool 1 cpu) eqn:E.
    + apply Qle_bool_iff in E. exfalso. now apply (Qlt_not_le cpu 1).
    + cbn [negb]. now destruct (1000 <=? b + 350)%Z.
  - intros rest Hp. rewrite Href, Hp. reflexivity.
Qed.

Lemma detector_debounce_witness :
  CommandExecutor.isWaitingForUserInput (lit "/dev/ttys001")
    (Samples.busy_world Samples.samples_a)
  = Some (Normal true,
          Spec.detector_run (lit "/dev/ttys001") 4
            (Samples.busy_world Samples.samples_a)).
Proof.
  exact (proj1 (@detector_debounce (lit "/dev/ttys001")
                  (Samples.busy_world Samples.samples_a) eq_refl)).
Defined.

(** The two sample sequences of the specification: readiness on the third
    low sample, and two samples later when a spike intervenes. *)
Example detector_sample_sequences :
  Spec.ready_after 0 Samples.samples_a = Some 4%nat
  /\ Spec.ready_after 0 Samples.samples_b = Some 6%nat
  /\ Spec.ready_after 0 (firstn 3 Samples.samples_a) = None
  /\ Spec.ready_after 0 (firstn 5 Samples.samples_b) = None.
Proof. repeat split; reflexivity. Qed.

(** ** The detector's result and the dispatcher's wait loop *)

Lemma isWaitingForUserInput_true (ttyPath : jsstring) (w : world)
  (r : completion bool) (w' : world) :
  CommandExecutor.isWaitingForUserInput ttyPath w = Some (r, w') ->
  r = Normal true.
Proof.
  unfold CommandExecutor.isWaitingForUserInput, finally_return.
  destruct (try_catch _ _ w) as [[c w1]|]; [|discriminate].
  destruct (tty_opens w); cbn; congruence.
Qed.

Lemma debounce_loop_true (ttyPath : jsstring) (fuel : nat) :
  forall b w c w',
    CommandExecutor.debounce_loop fuel ttyPath b w = Some (c, w') ->
    c = Normal true.
Proof.
  induction fuel as [|fuel IH]; intros b w c w';
    cbn [CommandExecutor.debounce_loop]; [discriminate|].
  unfold bind at 1, CommandExecutor.probe_once, try_catch, bind at 1,
    getActiveProcess.
  destruct (probes w) as [|p ps]; [discriminate|].
  destruct p as [| |cpu]; try (unfold ret; congruence).
  destruct (CommandExecutor.below_threshold cpu).
  - destruct (1000 <=? b + 350)%Z; [unfold ret; congruence|].
    unfold ret at 1, bind, sleep, emit. apply IH.
  - unfold ret at 1, bind, sleep, emit. apply IH.
Qed.

(** Every [return] of the try block and of its catch clauses yields true
    already, before the finally block runs. *)
Lemma try_block_true (ttyPath : jsstring) (fuel : nat) (w : world)
  (c : completion bool) (w' : world) :
  try_catch
    (bind (openSync ttyPath)
       (fun _ => CommandExecutor.debounce_loop fuel ttyPath 0))
    (fun _ => ret true) w = Some (c, w') ->
  c = Normal true.
Proof.
  unfold try_catch, bind, openSync.
  destruct (tty_opens w); [|unfold ret; congruence].
  destruct (CommandExecutor.debounce_loop fuel ttyPath 0 _)
    as [[[v|e] w1]|] eqn:E; try discriminate.
  - apply debounce_loop_true in E. congruence.
  - apply debounce_loop_true in E. discriminate E.
Qed.

Lemma sampling_sleeps (ttyPath : jsstring) (n : nat) :
  ~ In (Sleep 100) (Spec.sampling ttyPath n).
Proof.
  induction n as [|n IH]; [intros []|].
  destruct n as [|n]; cbn [Spec.sampling] in *.
  - intros [F|[]]. discriminate F.
  - intros [F|[F|F]]; try discriminate F. now apply IH.
Qed.

Lemma isWaitingForUserInput_trace (ttyPath : jsstring) (w : world)
  (r : completion bool) (w' : world) :
  CommandExecutor.isWaitingForUserInput ttyPath w = Some (r, w') ->
  exists events, log w' = log w ++ events /\ ~ In (Sleep 100) events.
Proof.
  destruct (tty_opens w) eqn:Hopen.
  - rewrite isWaitingForUserInput_refines by exact Hopen.
    destruct (Spec.ready_after 0 (probes w)) as [n|]; [|discriminate].
    intros [= _ <-].
    exists ([OpenSync ttyPath] ++ Spec.sampling ttyPath n ++ [CloseSync]).
    split; [reflexivity|]. intros H.
    apply in_app_or in H as [H|H];
      [cbn in H; destruct H as [F|[]]; discriminate F|].
    apply in_app_or in H as [H|H].
    + exact (sampling_sleeps _ _ H).
    + cbn in H. destruct H as [F|[]]. discriminate F.
  - rewrite isWaitingForUserInput_unopened by exact Hopen.
    intros [= _ <-]. exists [OpenSync ttyPath]. split; [reflexivity|].
    intros [F|[]]. discriminate F.
Qed.

(** C10.  Whenever the detector returns, it returns true: the value
    returned by its finally block replaces every other, and every return
    of the try block and its catch clauses is true as well.  It does
    return when the tty cannot be opened.  The dispatcher's loop on its
    result therefore makes one call and never runs its body. *)
Theorem isWaitingForUserInput_never_false (ttyPath : jsstring) (w : world) :
  (forall r w',
     CommandExecutor.isWaitingForUserInput ttyPath w = Some (r, w') ->
     r = Normal true)
  /\ (forall fuel c w',
        try_catch
          (bind (openSync ttyPath)
             (fun _ => CommandExecutor.debounce_loop fuel ttyPath 0))
          (fun _ => ret true) w = Some (c, w') ->
        c = Normal true)
  /\ (tty_opens w = false ->
      CommandExecutor.isWaitingForUserInput ttyPath w
      = Some (Normal true, emit_event (OpenSync ttyPath) w))
  /\ (forall fuel,
        CommandExecutor.while_not_waiting (S fuel) ttyPath w
        = match CommandExecutor.isWaitingForUserInput ttyPath w with
          | Some (_, w') => Some (Normal tt, w')
          | None => None
          end)
  /\ (forall fuel r w',
        CommandExecutor.while_not_waiting (S fuel) ttyPath w = Some (r, w') ->
        r = Normal tt
        /\ exists events,
             log w' = log w ++ events /\ ~ In (Sleep 100) events).
Proof.
  assert (Hloop : forall fuel,
    CommandExecutor.while_not_waiting (S fuel) ttyPath w
    = match CommandExecutor.isWaitingForUserInput ttyPath w with
      | Some (_, w') => Some (Normal tt, w')
      | None => None
      end).
  { intros fuel. cbn [CommandExecutor.while_not_waiting]. unfold bind at 1.
    destruct (CommandExecutor.isWaitingForUserInput ttyPath w)
      as [[r w']|] eqn:E; [|reflexivity].
    apply isWaitingForUserInput_true in E as ->. reflexivity. }
  split; [intros r w'; apply isWaitingForUserInput_true|].
  split; [intros fuel c w'; apply try_block_true|].
  split; [apply isWaitingForUserInput_unopened|].
  split; [exact Hloop|].
  intros fuel r w'. rewrite Hloop.
  destruct (CommandExecutor.isWaitingForUserInput ttyPath w)
    as [[r0 w0]|] eqn:E; [|discriminate].
  intros [= <- <-]. split; [reflexivity|].
  now apply isWaitingForUserInput_trace in E.
Qed.

Lemma isWaitingForUserInput_never_false_witness :
  CommandExecutor.while_not_waiting 1 (lit "/dev/ttys001")
    (Samples.busy_world Samples.samples_b)
  = Some (Normal tt,
          Spec.detector_run (lit "/dev/ttys001") 6
            (Samples.busy_world Samples.samples_b)).
Proof.
  exact (proj1 (proj2 (proj2 (proj2 (@isWaitingForUserInput_never_false
           (lit "/dev/ttys001") (Samples.busy_world Samples.samples_b)))))
           0%nat).
Defined.

(** ** Session Resolver: which session the scripts address *)

Import Bridge.

Lemma unescape_escape_tty (path : jsstring) :
  unescape (escape_tty path) = path.
Proof.
  unfold escape_tty, replace_unit. rewrite flat_map_compose.
  induction path as [|c path IH]; [reflexivity|].
  cbn [flat_map]. unfold BACKSLASH, DQUOTE in *.
  destruct (N.eqb_spec c 92) as [->|H1]; [cbn in *; now rewrite IH|].
  cbn [flat_map app].
  destruct (N.eqb_spec c 34) as [->|H2]; [cbn in *; now rewrite IH|].
  cbn [app unescape]. unfold BACKSLASH.
  apply N.eqb_neq in H1. rewrite H1. now rewrite IH.
Qed.

Lemma buffer_script_target (ttyPath : option jsstring) :
  script_target (TtyOutputReader.buffer_script ttyPath)
  = session_ref (truthy ttyPath).
Proof.
  unfold TtyOutputReader.buffer_script.
  destruct (truthy ttyPath); cbn; [now rewrite unescape_escape_tty|reflexivity].
Qed.

Lemma processing_script_target (target : option jsstring) :
  script_target (CommandExecutor.processing_script target) = session_ref target.
Proof.
  destruct target; cbn; [now rewrite unescape_escape_tty|reflexivity].
Qed.

Lemma write_script_target (target : option jsstring) (command : jsstring) :
  script_target (CommandExecutor.write_script target command)
  = session_ref target.
Proof.
  unfold CommandExecutor.write_script.
  destruct target; cbn; [now rewrite unescape_escape_tty|reflexivity].
Qed.

Lemma control_script_target (target : option jsstring) (code : N) :
  script_target (SendControlCharacter.control_script target code)
  = session_ref target.
Proof.
  destruct target; cbn; [now rewrite unescape_escape_tty|reflexivity].
Qed.

Lemma truthy_idempotent (s : option jsstring) : truthy (truthy s) = truthy s.
Proof. destruct s as [[|c s]|]; reflexivity. Qed.

Lemma scripts_of_app (l1 l2 : list event) :
  Index.scripts_of (l1 ++ l2) = Index.scripts_of l1 ++ Index.scripts_of l2.
Proof.
  induction l1 as [|e l1 IH]; [reflexivity|].
  destruct e; cbn [app Index.scripts_of]; now rewrite IH.
Qed.

Lemma all_address_emit (r : SessionRef) (e : event) (w : world) :
  (forall sc, e = Osascript sc -> script_target sc = r) ->
  Spec.all_address r (log w) ->
  Spec.all_address r (log (emit_event e w)).
Proof.
  unfold Spec.all_address. intros He Hw. cbn [emit_event log].
  rewrite scripts_of_app. apply Forall_app. split; [exact Hw|].
  destruct e; cbn; constructor; auto.
Qed.

Section Addressing.

Variable r : SessionRef.

Lemma addresses_ret (A : Type) (a : A) : Spec.addresses_only r (ret a).
Proof. intros w c w' [= _ <-] H. exact H. Qed.

Lemma addresses_throw (A : Type) (e : jsstring) :
  Spec.addresses_only r (@throw A e).
Proof. intros w c w' [= _ <-] H. exact H. Qed.

Lemma addresses_bind (A B : Type) (m : M A) (f : A -> M B) :
  Spec.addresses_only r m ->
  (forall a, Spec.addresses_only r (f a)) ->
  Spec.addresses_only r (bind m f).
Proof.
  intros Hm Hf w c w' E H. unfold bind in E.
  destruct (m w) as [[[a|e] w1]|] eqn:Em; [| |discriminate].
  - eapply Hf; [exact E|]. eapply Hm; eauto.
  - injection E as _ <-. eapply Hm; eauto.
Qed.

Lemma addresses_try_catch (A : Type) (body : M A) (handler : jsstring -> M A) :
  Spec.addresses_only r body ->
  (forall e, Spec.addresses_only r (handler e)) ->
  Spec.addresses_only r (try_catch body handler).
Proof.
  intros Hb Hh w c w' E H. unfold try_catch in E.
  destruct (body w) as [[[a|e] w1]|] eqn:Eb; [| |discriminate].
  - injection E as _ <-. eapply Hb; eauto.
  - eapply Hh; [exact E|]. eapply Hb; eauto.
Qed.

Lemma addresses_finally (A B : Type) (body : M A) (fin : M unit) (v : B) :
  Spec.addresses_only r body ->
  Spec.addresses_only r fin ->
  Spec.addresses_only r (finally_return body fin v).
Proof.
  intros Hb Hf w c w' E H. unfold finally_return in E.
  destruct (body w) as [[c1 w1]|] eqn:Eb; [|discriminate].
  destruct (fin w1) as [[[u|e] w2]|] eqn:Ef; [| |discriminate];
    injection E as _ <-; eapply Hf; eauto; eapply Hb; eauto.
Qed.

Lemma addresses_emit (e : event) :
  (forall sc, e <> Osascript sc) -> Spec.addresses_only r (emit e).
Proof.
  intros He w c w' [= _ <-] H. apply all_address_emit; [|exact H].
  intros sc F. now elim (He sc).
Qed.

Lemma addresses_sleep (ms : Z) : Spec.addresses_only r (sleep ms).
Proof. apply addresses_emit. discriminate. Qed.

Lemma addresses_closeSync : Spec.addresses_only r closeSync.
Proof. apply addresses_emit. discriminate. Qed.

Lemma addresses_openSync (path : jsstring) :
  Spec.addresses_only r (openSync path).
Proof.
  intros w c w' E H. unfold openSync in E.
  destruct (tty_opens w); injection E as _ <-;
    (apply all_address_emit; [discriminate|exact H]).
Qed.

Lemma addresses_getActiveProcess (path : jsstring) :
  Spec.addresses_only r (getActiveProcess path).
Proof.
  intros w c w' E H. unfold getActiveProcess in E.
  destruct (probes w) as [|p ps] eqn:Ep; [discriminate|].
  assert (H' : Spec.all_address r (log (next_probe w))) by exact H.
  destruct p; injection E as _ <-;
    (apply all_address_emit; [discriminate|exact H']).
Qed.

Lemma addresses_osascript (sc : script) :
  script_target sc = r -> Spec.addresses_only r (osascript sc).
Proof.
  intros Hsc w c w' E H. unfold osascript in E.
  destruct (hosts w) as [|h hs]; [discriminate|].
  assert (H' : Spec.all_address r (log (next_host w))) by exact H.
  destruct (run_script h sc); injection E as _ <-;
    (apply all_address_emit; [now intros ? [= <-]|exact H']).
Qed.

Lemma addresses_pointwise (A : Type) (m : world -> M A) :
  (forall w0, Spec.addresses_only r (m w0)) ->
  Spec.addresses_only r (fun w => m w w).
Proof. intros Hm w c w' E H. eapply Hm; eauto. Qed.

End Addressing.

Ltac addressing :=
  repeat first
    [ progress intros
    | apply addresses_bind
    | apply addresses_try_catch
    | apply addresses_finally
    | apply addresses_ret
    | apply addresses_throw
    | apply addresses_sleep
    | apply addresses_closeSync
    | apply addresses_openSync
    | apply addresses_getActiveProcess
    | match goal with
      | |- Spec.addresses_only _ (if ?b then _ else _) => destruct b
      | |- Spec.addresses_only _ (match ?x with _ => _ end) => destruct x
      end ].

Lemma addresses_retrieveBuffer (ttyPath : option jsstring) :
  Spec.addresses_only (session_ref (truthy ttyPath))
    (TtyOutputReader.retrieveBuffer ttyPath).
Proof.
  unfold TtyOutputReader.retrieveBuffer, TtyOutputReader.rethrow_buffer.
  addressing. apply addresses_osascript, buffer_script_target.
Qed.

Lemma addresses_isProcessing (target : option jsstring) :
  Spec.addresses_only (session_ref target) (CommandExecutor.isProcessing target).
Proof.
  unfold CommandExecutor.isProcessing. addressing.
  apply addresses_osascript, processing_script_target.
Qed.

Lemma addresses_while_processing (target : option jsstring) (fuel : nat) :
  Spec.addresses_only (session_ref target)
    (CommandExecutor.while_processing fuel target).
Proof.
  induction fuel as [|fuel IH]; cbn [CommandExecutor.while_processing].
  - intros w c w' F. discriminate F.
  - apply addresses_bind; [apply addresses_isProcessing|].
    intros [|]; addressing. exact IH.
Qed.

Lemma addresses_retrieveTtyPath (target : option jsstring) :
  Spec.addresses_only (session_ref target)
    (CommandExecutor.retrieveTtyPath target).
Proof.
  unfold CommandExecutor.retrieveTtyPath. destruct target as [p|].
  - apply addresses_ret.
  - addressing. now apply addresses_osascript.
Qed.

Lemma addresses_debounce_loop (r : SessionRef) (ttyPath : jsstring)
  (fuel : nat) :
  forall b, Spec.addresses_only r (CommandExecutor.debounce_loop fuel ttyPath b).
Proof.
  induction fuel as [|fuel IH]; intros b;
    cbn [CommandExecutor.debounce_loop].
  - intros w c w' F. discriminate F.
  - unfold CommandExecutor.probe_once. addressing. apply IH.
Qed.

Lemma addresses_isWaitingForUserInput (r : SessionRef) (ttyPath : jsstring) :
  Spec.addresses_only r (CommandExecutor.isWaitingForUserInput ttyPath).
Proof.
  unfold CommandExecutor.isWaitingForUserInput.
  apply (@addresses_pointwise r bool
           (fun w0 => finally_return
              (try_catch
                 (bind (openSync ttyPath)
                    (fun _ => CommandExecutor.debounce_loop
                                (S (List.length (probes w0))) ttyPath 0))
                 (fun _ => ret true))
              (if tty_opens w0 then closeSync else ret tt) true)).
  intros w0. addressing. apply addresses_debounce_loop.
Qed.

Lemma addresses_while_not_waiting (r : SessionRef) (ttyPath : jsstring)
  (fuel : nat) :
  Spec.addresses_only r (CommandExecutor.while_not_waiting fuel ttyPath).
Proof.
  induction fuel as [|fuel IH]; cbn [CommandExecutor.while_not_waiting].
  - intros w c w' F. discriminate F.
  - apply addresses_bind; [apply addresses_isWaitingForUserInput|].
    intros [|]; cbn [negb]; addressing. exact IH.
Qed.

Lemma addresses_executeCommand (ttyPath : option jsstring)
  (command : jsstring) :
  Spec.addresses_only (session_ref (truthy ttyPath))
    (CommandExecutor.executeCommand ttyPath command).
Proof.
  unfold CommandExecutor.executeCommand.
  apply addresses_try_catch; [|addressing].
  apply (@addresses_pointwise (session_ref (truthy ttyPath)) jsstring
    (fun w0 =>
       bind (osascript (CommandExecutor.write_script (truthy ttyPath) command))
         (fun _ => bind (CommandExecutor.while_processing
                           (S (List.length (hosts w0))) (truthy ttyPath))
         (fun _ => bind (CommandExecutor.retrieveTtyPath (truthy ttyPath))
         (fun tty => bind (CommandExecutor.while_not_waiting
                             (S (List.length (probes w0))) tty)
         (fun _ => bind (sleep 200)
         (fun _ => TtyOutputReader.retrieveBuffer (truthy ttyPath)))))))).
  intros w0.
  apply addresses_bind;
    [apply addresses_osascript, write_script_target|intros _].
  apply addresses_bind; [apply addresses_while_processing|intros _].
  apply addresses_bind; [apply addresses_retrieveTtyPath|intros tty].
  apply addresses_bind; [apply addresses_while_not_waiting|intros _].
  apply addresses_bind; [apply addresses_sleep|intros _].
  pose proof (addresses_retrieveBuffer (truthy ttyPath)) as H.
  now rewrite truthy_idempotent in H.
Qed.

Lemma addresses_send (ttyPath : option jsstring) (letter : jsstring) :
  Spec.addresses_only (session_ref (truthy ttyPath))
    (SendControlCharacter.send ttyPath letter).
Proof.
  unfold SendControlCharacter.send.
  destruct (SendControlCharacter.control_code letter) as [code|];
    [|apply addresses_throw].
  addressing. apply addresses_osascript, control_script_target.
Qed.

Lemma addresses_call (ttyPath : option jsstring) (n : option Z) :
  Spec.addresses_only (session_ref (truthy ttyPath))
    (TtyOutputReader.call n ttyPath).
Proof.
  unfold TtyOutputReader.call.
  apply addresses_bind; [apply addresses_retrieveBuffer|addressing].
Qed.

Lemma addresses_call_filtering (ttyPath : option jsstring) (n : option Z)
  (flag : option bool) :
  Spec.addresses_only (session_ref (truthy ttyPath))
    (TtyOutputReader.call_filtering n ttyPath flag).
Proof.
  unfold TtyOutputReader.call_filtering.
  apply addresses_bind; [apply addresses_retrieveBuffer|addressing].
Qed.

(** Every component addresses the session named by the path it is given. *)
Lemma addresses_call_tool (name : Index.tool) (a : Index.arguments) :
  Spec.addresses_only (Index.addressed (Index.resolve_ttyPath a))
    (Index.call_tool name a)
  /\ Spec.addresses_only (Index.addressed (Index.resolve_ttyPath_earlier a))
       (Index.call_tool_earlier name a).
Proof.
  unfold Index.addressed, Index.call_tool, Index.call_tool_earlier.
  split; destruct name.
  all: repeat first
         [ apply addresses_bind
         | apply addresses_retrieveBuffer
         | apply addresses_executeCommand
         | apply addresses_send
         | apply addresses_call
         | apply addresses_call_filtering
         | apply addresses_ret
         | progress intros ].
Qed.

(** C1, as amended.  When the caller omits [ttyPath], the dispatcher of
    index.ts puts the fixed path /dev/ttys001 in its place, and every
    script of the three operations searches for the session with that
    path; it is the earlier revision of the dispatcher that passes the
    omission on, so that every script addresses the current session. *)
Theorem omitted_ttyPath_target (name : Index.tool) (a : Index.arguments) :
  Index.ttyPath a = None ->
  Index.resolve_ttyPath a = Some Index.DEFAULT_TTY
  /\ Spec.addresses_only (ByPath Index.DEFAULT_TTY) (Index.call_tool name a)
  /\ Index.resolve_ttyPath_earlier a = None
  /\ Spec.addresses_only Current (Index.call_tool_earlier name a).
Proof.
  intros Homit.
  destruct (addresses_call_tool name a) as [Hnow Hearlier].
  unfold Index.addressed, Index.resolve_ttyPath, Index.resolve_ttyPath_earlier
    in *.
  rewrite Homit in *. cbn in Hnow, Hearlier. cbn. auto.
Qed.

Lemma omitted_ttyPath_target_witness :
  Index.ttyPath Samples.no_arguments = None
  /\ Spec.addresses_only (ByPath Index.DEFAULT_TTY)
       (Index.call_tool Index.read_terminal_output Samples.no_arguments).
Proof.
  split; [reflexivity|].
  exact (proj1 (proj2 (@omitted_ttyPath_target Index.read_terminal_output
                         Samples.no_arguments eq_refl))).
Defined.

(** C1 as stated fails on index.ts: with [ttyPath] omitted and the session
    /dev/ttys005 focused, the read operation searches for /dev/ttys001 and
    returns that session's buffer. *)
Lemma omitted_ttyPath_counterexample :
  ~ (forall (name : Index.tool) (a : Index.arguments),
       Index.ttyPath a = None ->
       Spec.addresses_only Current (Index.call_tool name a)).
Proof.
  intros H.
  specialize (H Index.read_terminal_output Samples.no_arguments eq_refl).
  unfold Spec.addresses_only in H.
  specialize (H Samples.idle_world _ _ eq_refl (Forall_nil _)).
  vm_compute in H. inversion H as [|? ? F _]. discriminate F.
Qed.

Example omitted_ttyPath_reads_ttys001 :
  exists w',
    Index.call_tool Index.read_terminal_output Samples.no_arguments
      Samples.idle_world
    = Some (Normal (lit "make" ++ [LF] ++ lit "build ok" ++ [LF] ++ lit "$"), w')
    /\ Index.scripts_of (log w')
       = [SearchByPath (lit "/dev/ttys001") GetContents ReturnText]
    /\ current Samples.iterm = Some Samples.session_005.
Proof.
  eexists. split; [vm_compute; reflexivity|split; reflexivity].
Qed.

(** ** Session Resolver: a path that no session has *)

Lemma search_sessions_none (same : jsstring -> jsstring -> bool)
  (target : jsstring) (c : command) (ss : list session) :
  (forall s p, In s ss -> tty s = Some p -> same p target = false) ->
  search_sessions same target c ss = None.
Proof.
  induction ss as [|s ss IH]; intros H; [reflexivity|].
  cbn [search_sessions].
  destruct (tty s) as [t|] eqn:Et.
  - rewrite (H s t (or_introl eq_refl) Et). cbn [andb].
    apply IH. intros s' p Hs'. apply H. now right.
  - apply IH. intros s' p Hs'. apply H. now right.
Qed.

Lemma search_tabs_none (same : jsstring -> jsstring -> bool)
  (target : jsstring) (c : command) (ts : list tab) :
  (forall t s p, In t ts -> In s t -> tty s = Some p ->
                 same p target = false) ->
  search_tabs same target c ts = None.
Proof.
  induction ts as [|t ts IH]; intros H; [reflexivity|].
  cbn [search_tabs]. rewrite search_sessions_none.
  - apply IH. intros t' s p Ht'. apply H. now right.
  - intros s p. apply H. now left.
Qed.

Lemma search_windows_none (h : host) (target : jsstring) (c : command) :
  ~ has_session h target ->
  search_windows (same_text h) target c (windows h) = None.
Proof.
  unfold has_session. intros H.
  assert (G : forall w t s p, In w (windows h) -> In t w -> In s t ->
                              tty s = Some p ->
                              same_text h p target = false).
  { intros w t s p Hw Ht Hs E.
    destruct (same_text h p target) eqn:Es; [|reflexivity].
    elim H. now exists w, t, s, p. }
  clear H. induction (windows h) as [|w ws IH]; [reflexivity|].
  cbn [search_windows]. rewrite search_tabs_none.
  - apply IH. intros w' t s p Hw'. apply G. now right.
  - intros t s p. apply G. now left.
Qed.

Lemma forallb_flat_map (A B : Type) (f : B -> bool) (g : A -> list B)
  (l : list A) :
  forallb f (flat_map g l) = forallb (fun x => forallb f (g x)) l.
Proof.
  induction l as [|x l IH]; [reflexivity|].
  cbn [flat_map forallb]. now rewrite forallb_app, IH.
Qed.

Lemma forallb_pointwise (A : Type) (f g : A -> bool) (l : list A) :
  (forall x, f x = g x) -> forallb f l = forallb g l.
Proof.
  intros H. induction l as [|x l IH]; [reflexivity|].
  cbn [forallb]. now rewrite H, IH.
Qed.

(** Escaping the path adds backslashes only: it neither adds nor removes a
    single quote. *)
Lemma passes_quotes_escape_tty (path : jsstring) :
  passes_quotes (escape_tty path) = passes_quotes path.
Proof.
  unfold passes_quotes, escape_tty, replace_unit.
  rewrite !forallb_flat_map. apply forallb_pointwise. intros c.
  unfold BACKSLASH, DQUOTE, SQUOTE.
  destruct (N.eqb_spec c 92) as [->|H1]; [reflexivity|].
  cbn [forallb]. destruct (N.eqb_spec c 34) as [->|H2]; [reflexivity|].
  cbn [forallb]. now rewrite !andb_true_r.
Qed.

(** With no session on the requested path, the search that ends in [error]
    raises the not-found text and the search of the buffer read returns the
    same words as its value. *)
Lemma in_application_unknown_path (h : host) (path : jsstring)
  (c : command) :
  running h = true ->
  ~ has_session h path ->
  in_application h (SearchByPath (escape_tty path) c RaiseError)
    = ScriptError (not_found_text path)
  /\ in_application h (SearchByPath (escape_tty path) c ReturnText)
     = Stdout (not_found_text path ++ [LF]).
Proof.
  intros Hrun Hno. unfold in_application. rewrite Hrun. cbn [negb].
  rewrite unescape_escape_tty, search_windows_none by exact Hno. now split.
Qed.

Lemma run_script_unknown_path (h : host) (path : jsstring) (c : command) :
  running h = true ->
  ~ has_session h path ->
  intact (SearchByPath (escape_tty path) c RaiseError) = true ->
  run_script h (SearchByPath (escape_tty path) c RaiseError)
  = ScriptError
      (exec_message h (SearchByPath (escape_tty path) c RaiseError)
         (not_found_text path)).
Proof.
  intros Hrun Hno Hin. unfold run_script. rewrite Hin.
  now rewrite (proj1 (in_application_unknown_path _ Hrun Hno)).
Qed.

Lemma iterm_has_no_ttys999 : ~ has_session Samples.iterm Samples.unknown_tty.
Proof.
  intros (w & t & s & p & Hw & Ht & Hs & E & Hsame).
  cbn in Hw. destruct Hw as [<-|[]].
  cbn in Ht. destruct Ht as [<-|[<-|[]]];
    cbn in Hs; destruct Hs as [<-|[]]; injection E as <-;
    vm_compute in Hsame; discriminate Hsame.
Qed.

(** C2.  With no session on /dev/ttys999, the read operation does not
    fail: it returns the words of the not-found message as the text of the
    buffer, while the write operation on the same host does fail, with a
    message that starts with the name of the operation. *)
Theorem read_unknown_path_returns_text :
  ~ has_session Samples.iterm Samples.unknown_tty
  /\ (exists w',
        Index.call_tool Index.read_terminal_output Samples.read_unknown
          Samples.idle_world
        = Some (Normal (lit "Session with TTY /dev/ttys999 not found"), w'))
  /\ (exists w',
        TtyOutputReader.call (Some 5%Z) (Some Samples.unknown_tty)
          Samples.idle_world
        = Some (Normal (lit "Session with TTY /dev/ttys999 not found"), w'))
  /\ (exists m w',
        CommandExecutor.executeCommand (Some Samples.unknown_tty) (lit "ls")
          Samples.idle_world
        = Some (Thrown (lit "Failed to execute command: " ++ m), w')).
Proof.
  split; [exact iterm_has_no_ttys999|].
  split; [eexists; vm_compute; reflexivity|].
  split; [eexists; vm_compute; reflexivity|].
  exists (Samples.command_failed
            (CommandExecutor.write_script (Some Samples.unknown_tty)
               (lit "ls"))
            (not_found_text Samples.unknown_tty)).
  eexists. vm_compute. reflexivity.
Qed.


(* ================================================================== *)
(** * Part III: further properties of the sources                      *)
(* ================================================================== *)

(** ** The path between the quotes of [set targetTTY to] *)

Lemma read_tty_text (path : jsstring) :
  forall acc texts joins rest,
    Host.read (Host.InText acc) texts joins
      (escape_tty path ++ DQUOTE :: rest)
    = Host.read Host.AfterText ((rev acc ++ path) :: texts) joins rest.
Proof.
  unfold escape_tty, replace_unit. rewrite flat_map_compose.
  induction path as [|c path IH]; intros acc texts joins rest.
  - cbn. now rewrite app_nil_r.
  - cbn [flat_map]. rewrite <- app_assoc. unfold BACKSLASH, DQUOTE in *.
    destruct (N.eqb_spec c 92) as [->|H1];
      [cbn; rewrite IH; cbn; now rewrite <- app_assoc|].
    cbn [flat_map app].
    destruct (N.eqb_spec c 34) as [->|H2];
      [cbn; rewrite IH; cbn; now rewrite <- app_assoc|].
    cbn [app Host.read]. unfold BACKSLASH, DQUOTE.
    apply N.eqb_neq in H1, H2. rewrite H1, H2.
    rewrite IH. cbn. now rewrite <- app_assoc.
Qed.

(** X3.  The text put between the quotes of [set targetTTY to "..."]
    reads back as the requested path, whatever double quotes and
    backslashes the path holds: it is one quoted text with no join.  Single
    quotes are left as they are, so only a path without them keeps the
    command line whole. *)
Theorem escape_tty_reads_back (path : jsstring) :
  Host.parse (DQUOTE :: escape_tty path ++ [DQUOTE]) = Some ([path], 0%nat)
  /\ unescape (escape_tty path) = path
  /\ passes_quotes (escape_tty path) = passes_quotes path.
Proof.
  split; [|split].
  - unfold Host.parse. cbn [Host.read].
    change (DQUOTE =? DQUOTE)%N with true. cbv iota.
    now rewrite read_tty_text.
  - apply unescape_escape_tty.
  - apply passes_quotes_escape_tty.
Qed.

(** ** Control-Character Sender: codes, refusals, bridge calls *)

(** X4.  Whatever the letter, a code the sender computes is a control
    code: 1 to 26, 27 or 29. *)
Theorem control_code_range (letter : jsstring) (code : N) :
  SendControlCharacter.control_code letter = Some code ->
  (1 <= code <= 26)%N \/ code = 27%N \/ code = 29%N.
Proof.
  unfold SendControlCharacter.control_code.
  destruct (eqb_string (toUpperCase letter) (lit "]"));
    [intros [= <-]; auto|].
  destruct (eqb_string (toUpperCase letter) (lit "ESCAPE")
            || eqb_string (toUpperCase letter) (lit "ESC"));
    [intros [= <-]; auto|].
  destruct (toUpperCase letter) as [|c [|c' l]]; cbn; try discriminate.
  destruct (N.leb_spec 65 c); destruct (N.leb_spec c 90); cbn;
    try discriminate.
  intros [= <-]. left. lia.
Qed.

Lemma control_code_range_witness :
  SendControlCharacter.control_code (lit "z") = Some 26%N
  /\ ((1 <= 26 <= 26)%N \/ 26%N = 27%N \/ 26%N = 29%N).
Proof.
  split; [reflexivity|].
  exact (@control_code_range (lit "z") 26%N eq_refl).
Defined.

(** X5.  On ASCII input, a letter that is not the bracket, not ESC or
    Escape in any case and not a single letter is refused by the sender
    and by the tool before anything is sent: the error is the
    invalid-letter one and no effect is performed. *)
Theorem invalid_letter_refused (targetTtyPath : option jsstring)
  (letter : jsstring) (a : Index.arguments) (w : world) :
  Forall (fun c => (c < 128)%N) letter ->
  letter <> lit "]" ->
  ~ Spec.same_ignoring_case letter (lit "ESC") ->
  ~ Spec.same_ignoring_case letter (lit "Escape") ->
  (forall c, Spec.is_ascii_letter c -> letter <> [c]) ->
  Index.letter a = Some letter ->
  SendControlCharacter.send targetTtyPath letter w
    = Some (Thrown SendControlCharacter.INVALID_LETTER, w)
  /\ Index.call_tool Index.send_control_character a w
     = Some (Thrown SendControlCharacter.INVALID_LETTER, w)
  /\ Index.call_tool_earlier Index.send_control_character a w
     = Some (Thrown SendControlCharacter.INVALID_LETTER, w).
Proof.
  intros H1 H2 H3 H4 H5 Ha.
  assert (Hs : forall t, SendControlCharacter.send t letter w
                         = Some (Thrown SendControlCharacter.INVALID_LETTER, w)).
  { intros t. now apply send_rejects_ascii. }
  split; [apply Hs|].
  unfold Index.call_tool, Index.call_tool_earlier, bind, Index.String_.
  rewrite Ha, !Hs. now split.
Qed.

Lemma invalid_letter_refused_witness :
  Index.call_tool Index.send_control_character Cases.digit_letter
    Samples.idle_world
  = Some (Thrown SendControlCharacter.INVALID_LETTER, Samples.idle_world).
Proof.
  refine (proj1 (proj2 (@invalid_letter_refused None (lit "1")
                          Cases.digit_letter Samples.idle_world
                          _ _ _ _ _ eq_refl))).
  - repeat constructor.
  - discriminate.
  - discriminate.
  - discriminate.
  - intros c [H|H] E; injection E as E; subst c; lia.
Defined.

(** X6.  The sender is fire-and-forget: a call either refuses the letter
    and does nothing, or performs exactly one bridge call carrying the
    code and returns; it then succeeds or fails with a message that starts
    with the name of the operation.  It never sleeps, probes or polls. *)
Theorem send_outcomes (targetTtyPath : option jsstring) (letter : jsstring)
  (w : world) (c : completion unit) (w' : world) :
  SendControlCharacter.send targetTtyPath letter w = Some (c, w') ->
  (SendControlCharacter.control_code letter = None
   /\ c = Thrown SendControlCharacter.INVALID_LETTER /\ w' = w)
  \/ (exists code,
        SendControlCharacter.control_code letter = Some code
        /\ w' = emit_event
                  (Osascript (SendControlCharacter.control_script
                                (truthy targetTtyPath) code))
                  (next_host w)
        /\ (c = Normal tt
            \/ exists m,
                 c = Thrown (lit "Failed to send control character: " ++ m))).
Proof.
  unfold SendControlCharacter.send.
  destruct (SendControlCharacter.control_code letter) as [code|].
  - intros E. right. exists code. split; [reflexivity|].
    unfold try_catch, bind, osascript in E.
    destruct (hosts w) as [|h hs]; [discriminate|].
    destruct (run_script h _) as [text|message].
    + injection E as <- <-. auto.
    + destruct (includes (lit "Session with TTY") message);
        [|destruct (includes (lit "Application isn\'t running") message)];
        injection E as <- <-; (split; [reflexivity|right; eexists; reflexivity]).
  - intros [= <- <-]. left. auto.
Qed.

Lemma send_outcomes_witness :
  exists code,
    SendControlCharacter.control_code (lit "c") = Some code
    /\ emit_event
         (Osascript (TellCurrent (WriteAsciiCharacter 3)))
         (next_host Samples.idle_world)
       = emit_event
           (Osascript (SendControlCharacter.control_script (truthy None) code))
           (next_host Samples.idle_world)
    /\ (Normal tt = Normal tt
        \/ exists m,
             Normal tt
             = Thrown (lit "Failed to send control character: " ++ m)).
Proof.
  destruct (@send_outcomes None (lit "c") Samples.idle_world (Normal tt)
              (emit_event (Osascript (TellCurrent (WriteAsciiCharacter 3)))
                 (next_host Samples.idle_world)) eq_refl)
    as [(F & _)|H]; [discriminate F|exact H].
Defined.

(** The revision of the sender that joins prefix, command and suffix
    builds the same script as the other one when no path is given, so the
    two agree on the current session. *)
Lemma send_joined_current (targetTtyPath : option jsstring)
  (letter : jsstring) (w : world) :
  truthy targetTtyPath = None ->
  SendControlCharacter.send_joined targetTtyPath letter w
  = SendControlCharacter.send targetTtyPath letter w.
Proof.
  intros Ht. unfold SendControlCharacter.send_joined,
    SendControlCharacter.send. now rewrite Ht.
Qed.

(** ** Errors of the dispatcher and of the reader *)

(** X7.  Whatever fails inside [executeCommand] (the write, the busy poll,
    the tty lookup or the final read), the error it throws starts with
    "Failed to execute command: ". *)
Theorem executeCommand_errors_prefixed (targetTtyPath : option jsstring)
  (command : jsstring) (w : world) (message : jsstring) (w' : world) :
  CommandExecutor.executeCommand targetTtyPath command w
  = Some (Thrown message, w') ->
  exists m, message = lit "Failed to execute command: " ++ m.
Proof.
  unfold CommandExecutor.executeCommand, try_catch.
  match goal with
  | |- context [match ?x with _ => _ end] =>
      destruct x as [[[a|e] w1]|]
  end; try discriminate.
  destruct (includes (lit "Session with TTY") e);
    [|destruct (includes (lit "Application isn\'t running") e)];
    intros [= <- _]; eexists; reflexivity.
Qed.

Lemma executeCommand_errors_prefixed_witness :
  exists m,
    lit "Failed to execute command: "
    ++ Samples.command_failed
         (CommandExecutor.write_script (Some Samples.unknown_tty) (lit "ls"))
         (not_found_text Samples.unknown_tty)
    = lit "Failed to execute command: " ++ m.
Proof.
  exact (@executeCommand_errors_prefixed (Some Samples.unknown_tty) (lit "ls")
           Samples.idle_world _ _ eq_refl).
Defined.

(** X8.  The read operation, in both revisions, fails only with a message
    that starts with "Failed to retrieve buffer: ". *)
Theorem read_errors_prefixed (linesOfOutput : option Z)
  (ttyPath : option jsstring) (flag : option bool) (w : world)
  (message : jsstring) (w' : world) :
  TtyOutputReader.call linesOfOutput ttyPath w = Some (Thrown message, w')
  \/ TtyOutputReader.call_filtering linesOfOutput ttyPath flag w
     = Some (Thrown message, w') ->
  exists m, message = lit "Failed to retrieve buffer: " ++ m.
Proof.
  assert (H : forall msg w1,
            TtyOutputReader.retrieveBuffer ttyPath w = Some (Thrown msg, w1) ->
            exists m, msg = lit "Failed to retrieve buffer: " ++ m).
  { intros msg w1. unfold TtyOutputReader.retrieveBuffer, try_catch, bind,
      osascript, TtyOutputReader.rethrow_buffer.
    destruct (hosts w) as [|h hs]; [discriminate|].
    destruct (run_script h _) as [text|e]; [discriminate|].
    destruct (includes (lit "Session with TTY") e);
      [|destruct (includes (lit "Application isn\'t running") e)];
      intros [= <- _]; eexists; reflexivity. }
  unfold TtyOutputReader.call, TtyOutputReader.call_filtering, bind.
  destruct (TtyOutputReader.retrieveBuffer ttyPath w)
    as [[[buffer|e] w1]|]; intros [E|E]; try discriminate E.
  all: injection E as <- _; now apply (H e w1).
Qed.

Lemma read_errors_prefixed_witness :
  exists m,
    lit "Failed to retrieve buffer: "
    ++ Samples.command_failed (TellCurrent GetContents)
         (lit "Application isn't running.")
    = lit "Failed to retrieve buffer: " ++ m.
Proof.
  refine (@read_errors_prefixed (Some 5%Z) None None Cases.stopped_world
            _ _ _).
  left. reflexivity.
Defined.

Lemma write_script_by_path (path command : jsstring) :
  CommandExecutor.write_script (Some path) command
  = SearchByPath (escape_tty path)
      (script_command (CommandExecutor.write_script (Some path) command))
      RaiseError.
Proof.
  unfold CommandExecutor.write_script.
  now destruct (includes [LF] command).
Qed.

(** A write that fails ends the command at once. *)
Lemma executeCommand_failed_write (targetTtyPath : option jsstring)
  (command : jsstring) (w : world) (h : host) (hs : list host)
  (e : jsstring) :
  hosts w = h :: hs ->
  run_script h
    (CommandExecutor.write_script (truthy targetTtyPath) command)
  = ScriptError e ->
  exists m,
    CommandExecutor.executeCommand targetTtyPath command w
    = Some (Thrown (lit "Failed to execute command: " ++ m),
            emit_event
              (Osascript (CommandExecutor.write_script
                            (truthy targetTtyPath) command))
              (next_host w)).
Proof.
  intros Hh Hrun.
  unfold CommandExecutor.executeCommand, try_catch, bind at 1, osascript.
  rewrite Hh. cbv beta iota zeta. rewrite Hrun.
  destruct (includes (lit "Session with TTY") e);
    [|destruct (includes (lit "Application isn\'t running") e)];
    eexists; reflexivity.
Qed.

(** X9.  With a running application, no session on the requested path and
    a command line that reaches osascript whole, the write operation and
    the control operation each fail after a single bridge call, with a
    message that starts with the name of the operation; neither polls,
    probes or sleeps. *)
Theorem unknown_path_fails_after_one_call (h : host) (path : jsstring)
  (w : world) (hs : list host) :
  path <> [] ->
  hosts w = h :: hs ->
  running h = true ->
  ~ has_session h path ->
  passes_quotes path = true ->
  (forall command,
     intact (CommandExecutor.write_script (Some path) command) = true ->
     exists m,
       CommandExecutor.executeCommand (Some path) command w
       = Some (Thrown (lit "Failed to execute command: " ++ m),
               emit_event
                 (Osascript (CommandExecutor.write_script (Some path)
                               command))
                 (next_host w)))
  /\ (forall letter code,
        SendControlCharacter.control_code letter = Some code ->
        exists m,
          SendControlCharacter.send (Some path) letter w
          = Some (Thrown (lit "Failed to send control character: " ++ m),
                  emit_event
                    (Osascript (SendControlCharacter.control_script
                                  (Some path) code))
                    (next_host w))).
Proof.
  intros Hp Hh Hrun Hno Hq.
  assert (Ht : truthy (Some path) = Some path)
    by (destruct path; [now elim Hp|reflexivity]).
  split.
  - intros command Hin.
    pose proof (@executeCommand_failed_write (Some path) command w h hs) as F.
    rewrite Ht in F. eapply F; [exact Hh|].
    rewrite write_script_by_path in Hin |- *.
    now apply run_script_unknown_path.
  - intros letter code Hc.
    unfold SendControlCharacter.send. rewrite Hc, Ht.
    unfold try_catch, bind at 1, osascript. rewrite Hh.
    cbv beta iota zeta. unfold SendControlCharacter.control_script.
    rewrite run_script_unknown_path; try assumption.
    + match goal with
      | |- context [includes (lit "Session with TTY") ?e] =>
          destruct (includes (lit "Session with TTY") e);
          [|destruct (includes (lit "Application isn\'t running") e)]
      end; eexists; reflexivity.
    + cbn [intact command_intact]. rewrite passes_quotes_escape_tty, Hq.
      reflexivity.
Qed.

Lemma unknown_path_fails_after_one_call_witness :
  exists m,
    CommandExecutor.executeCommand (Some Samples.unknown_tty) (lit "ls")
      Samples.idle_world
    = Some (Thrown (lit "Failed to execute command: " ++ m),
            emit_event
              (Osascript (CommandExecutor.write_script
                            (Some Samples.unknown_tty) (lit "ls")))
              (next_host Samples.idle_world)).
Proof.
  refine (proj1 (@unknown_path_fails_after_one_call Samples.iterm
                   Samples.unknown_tty Samples.idle_world
                   (repeat Samples.iterm 7) _ eq_refl eq_refl
                   iterm_has_no_ttys999 eq_refl) (lit "ls") eq_refl).
  discriminate.
Defined.

(** ** Command Dispatcher: the busy poll and the whole protocol *)

Lemma bind_normal (A B : Type) (m : M A) (f : A -> M B) (w w1 : world)
  (a : A) :
  m w = Some (Normal a, w1) -> bind m f w = f a w1.
Proof. intros E. unfold bind. now rewrite E. Qed.

Lemma isProcessing_reports (target : option jsstring) (b : bool)
  (w : world) (h : host) (hs : list host) :
  hosts w = h :: hs ->
  Props.reports_busy target b h ->
  CommandExecutor.isProcessing target w
  = Some (Normal b,
          emit_event (Osascript (CommandExecutor.processing_script target))
            (next_host w)).
Proof.
  intros Hh Hb. unfold Props.reports_busy in Hb.
  unfold CommandExecutor.isProcessing, try_catch, bind, osascript.
  rewrite Hh, Hb. now destruct b.
Qed.

Lemma while_processing_polls (target : option jsstring) (busy : list host) :
  forall fuel w h rest,
    hosts w = busy ++ h :: rest ->
    Forall (Props.reports_busy target true) busy ->
    Props.reports_busy target false h ->
    (List.length busy < fuel)%nat ->
    CommandExecutor.while_processing fuel target w
    = Some (Normal tt,
            {| hosts := rest; tty_opens := tty_opens w; probes := probes w;
               log := log w
                      ++ Props.polling
                           (CommandExecutor.processing_script target)
                           (List.length busy) |}).
Proof.
  induction busy as [|b busy IH]; intros fuel w h rest Hh Hbusy Hidle Hfuel;
    (destruct fuel as [|fuel]; [cbn in Hfuel; lia|]);
    cbn [CommandExecutor.while_processing].
  - rewrite (@bind_normal _ _ _ _ _ _ _ (@isProcessing_reports target false w h rest Hh Hidle)).
    unfold ret. destruct w as [hs op ps lg]. cbn in *. now subst hs.
  - inversion Hbusy as [|? ? Hb Hbusy']; subst.
    rewrite (@bind_normal _ _ _ _ _ _ _ (@isProcessing_reports target true w b (busy ++ h :: rest) Hh Hb)).
    unfold bind, sleep, emit.
    rewrite (IH fuel _ h rest); try assumption.
    + destruct w as [hs op ps lg]. cbn in *.
      now rewrite <- !app_assoc.
    + destruct w as [hs op ps lg]. cbn in *. now subst hs.
    + cbn in Hfuel. lia.
Qed.

(** X10.  While the session reports busy the dispatcher asks again every
    100 ms: after k busy answers and one idle answer it has made k+1 busy
    checks and slept k times, and goes on. *)
Theorem busy_poll_count (target : option jsstring) (busy : list host)
  (h : host) (rest : list host) (w : world) :
  hosts w = busy ++ h :: rest ->
  Forall (Props.reports_busy target true) busy ->
  Props.reports_busy target false h ->
  CommandExecutor.while_processing (S (List.length (hosts w))) target w
  = Some (Normal tt,
          {| hosts := rest; tty_opens := tty_opens w; probes := probes w;
             log := log w
                    ++ Props.polling
                         (CommandExecutor.processing_script target)
                         (List.length busy) |}).
Proof.
  intros Hh Hbusy Hidle. apply while_processing_polls with (h := h);
    try assumption.
  rewrite Hh, length_app. lia.
Qed.

Lemma while_not_waiting_once (ttyPath : jsstring) (fuel : nat) (w : world) :
  CommandExecutor.while_not_waiting (S fuel) ttyPath w
  = match CommandExecutor.isWaitingForUserInput ttyPath w with
    | Some (_, w') => Some (Normal tt, w')
    | None => None
    end.
Proof.
  cbn [CommandExecutor.while_not_waiting]. unfold bind at 1.
  destruct (CommandExecutor.isWaitingForUserInput ttyPath w)
    as [[r w']|] eqn:E; [|reflexivity].
  apply isWaitingForUserInput_true in E as ->. reflexivity.
Qed.

(** X11.  The protocol of a successful command on a session given by its
    path: one write, the busy poll, the completion detector on that same
    path, a settle delay of 200 ms, one buffer read; the result is the
    trimmed buffer of that last read, and nothing else is done. *)
Theorem executeCommand_protocol (path command : jsstring) (w : world)
  (h0 : host) (busy : list host) (h1 h2 : host) (rest : list host)
  (sent out : jsstring) (n : nat) :
  path <> [] ->
  hosts w = h0 :: busy ++ h1 :: h2 :: rest ->
  run_script h0 (CommandExecutor.write_script (Some path) command)
    = Stdout sent ->
  Forall (Props.reports_busy (Some path) true) busy ->
  Props.reports_busy (Some path) false h1 ->
  tty_opens w = true ->
  Spec.ready_after 0 (probes w) = Some n ->
  run_script h2 (TtyOutputReader.buffer_script (Some path)) = Stdout out ->
  CommandExecutor.executeCommand (Some path) command w
  = Some (Normal (trim out),
          {| hosts := rest; tty_opens := true;
             probes := skipn n (probes w);
             log := log w
                    ++ [Osascript (CommandExecutor.write_script (Some path)
                                     command)]
                    ++ Props.polling
                         (CommandExecutor.processing_script (Some path))
                         (List.length busy)
                    ++ [OpenSync path] ++ Spec.sampling path n ++ [CloseSync]
                    ++ [Sleep 200;
                        Osascript (TtyOutputReader.buffer_script
                                     (Some path))] |}).
Proof.
  intros Hp Hh Hwrite Hbusy Hidle Hopen Hready Hread.
  assert (Ht : truthy (Some path) = Some path)
    by (destruct path; [now elim Hp|reflexivity]).
  unfold CommandExecutor.executeCommand. rewrite Ht.
  unfold try_catch.
  set (w1 := emit_event
               (Osascript (CommandExecutor.write_script (Some path) command))
               (next_host w)).
  assert (E1 : osascript (CommandExecutor.write_script (Some path) command) w
               = Some (Normal sent, w1)).
  { unfold osascript. rewrite Hh. cbv beta iota zeta. now rewrite Hwrite. }
  rewrite (@bind_normal _ _ _ _ _ _ _ E1).
  assert (Hh1 : hosts w1 = busy ++ h1 :: h2 :: rest).
  { destruct w. cbn in *. now subst. }
  assert (Hfuel : (List.length busy < S (List.length (hosts w)))%nat).
  { rewrite Hh. cbn [List.length]. rewrite length_app. lia. }
  rewrite (@bind_normal _ _ _ _ _ _ _
             (@while_processing_polls (Some path) busy _ w1 h1 (h2 :: rest) Hh1 Hbusy Hidle Hfuel)).
  unfold CommandExecutor.retrieveTtyPath.
  unfold bind at 1, ret at 1.
  match goal with
  | |- context [bind (CommandExecutor.while_not_waiting _ _) _ ?x] =>
      set (w2 := x)
  end.
  assert (E3 : CommandExecutor.while_not_waiting
                 (S (List.length (probes w))) path w2
               = Some (Normal tt, Spec.detector_run path n w2)).
  { rewrite while_not_waiting_once, isWaitingForUserInput_refines.
    - subst w2 w1. destruct w. cbn in *. now rewrite Hready.
    - subst w2 w1. now destruct w. }
  rewrite (@bind_normal _ _ _ _ _ _ _ E3).
  set (w3 := Spec.detector_run path n w2).
  assert (Hh3 : hosts w3 = h2 :: rest).
  { subst w3 w2 w1. destruct w. cbn in Hh |- *. now subst. }
  unfold bind at 1, sleep, emit.
  unfold TtyOutputReader.retrieveBuffer, try_catch, bind, osascript.
  cbn [hosts emit_event]. rewrite Hh3. cbv beta iota zeta.
  rewrite Hread. unfold ret. f_equal. f_equal.
  subst w3 w2 w1. destruct w as [hs op ps lg].
  unfold Spec.detector_run, emit_event, next_host.
  cbn [hosts tty_opens probes log] in *. subst hs op. cbn [tl].
  f_equal. now rewrite <- !app_assoc.
Qed.

Lemma executeCommand_protocol_witness :
  CommandExecutor.executeCommand (Some (lit "/dev/ttys001")) (lit "make")
    Cases.busy_twice_world
  = Some (Normal (lit "make" ++ [LF] ++ lit "build ok" ++ [LF] ++ lit "$"),
          {| hosts := []; tty_opens := true;
             probes := [];
             log := [Osascript (CommandExecutor.write_script
                                  (Some (lit "/dev/ttys001")) (lit "make"));
                     Osascript (CommandExecutor.processing_script
                                  (Some (lit "/dev/ttys001")));
                     Sleep 100;
                     Osascript (CommandExecutor.processing_script
                                  (Some (lit "/dev/ttys001")));
                     Sleep 100;
                     Osascript (CommandExecutor.processing_script
                                  (Some (lit "/dev/ttys001")));
                     OpenSync (lit "/dev/ttys001");
                     GetActiveProcess (lit "/dev/ttys001");
                     CloseSync;
                     Sleep 200;
                     Osascript (TtyOutputReader.buffer_script
                                  (Some (lit "/dev/ttys001")))] |}).
Proof.
  refine (@executeCommand_protocol (lit "/dev/ttys001") (lit "make")
            Cases.busy_twice_world Samples.iterm
            [Cases.iterm_busy; Cases.iterm_busy] Samples.iterm Samples.iterm
            []
            (lit "Command sent to /dev/ttys001" ++ [LF])
            (Bridge.contents Samples.session_001 ++ [LF]) 1%nat
            _ eq_refl eq_refl _ eq_refl eq_refl eq_refl eq_refl).
  - discriminate.
  - repeat constructor.
Defined.

Lemma busy_poll_count_witness :
  CommandExecutor.while_processing 5 (Some (lit "/dev/ttys001"))
    (next_host Cases.busy_twice_world)
  = Some (Normal tt,
          {| hosts := [Samples.iterm]; tty_opens := true;
             probes := [NoProcess];
             log := [Osascript (CommandExecutor.processing_script
                                  (Some (lit "/dev/ttys001")));
                     Sleep 100;
                     Osascript (CommandExecutor.processing_script
                                  (Some (lit "/dev/ttys001")));
                     Sleep 100;
                     Osascript (CommandExecutor.processing_script
                                  (Some (lit "/dev/ttys001")))] |}).
Proof.
  refine (@busy_poll_count (Some (lit "/dev/ttys001"))
            [Cases.iterm_busy; Cases.iterm_busy] Samples.iterm
            [Samples.iterm] (next_host Cases.busy_twice_world)
            eq_refl _ eq_refl).
  repeat constructor.
Defined.

(** ** The tty path of the target *)

(** X12.  For a session given by its path the dispatcher takes that path
    as the tty to watch without asking the application; for the current
    session it asks once and trims the answer, and a blank answer is an
    error that comes out wrapped by the function's own catch clause. *)
Theorem retrieveTtyPath_outcomes (w : world) (h : host) (hs : list host)
  (out : jsstring) :
  hosts w = h :: hs ->
  run_script h (TellCurrent GetTty) = Stdout out ->
  (forall path, CommandExecutor.retrieveTtyPath (Some path) w
                = Some (Normal path, w))
  /\ CommandExecutor.retrieveTtyPath None w
     = Some (match trim out with
             | [] => Thrown (lit "Failed to retrieve TTY path: Could not retrieve TTY path for the current iTerm session.")
             | tty => Normal tty
             end,
             emit_event (Osascript (TellCurrent GetTty)) (next_host w)).
Proof.
  intros Hh Hout. split; [reflexivity|].
  unfold CommandExecutor.retrieveTtyPath, try_catch, bind, osascript.
  rewrite Hh, Hout. now destruct (trim out).
Qed.

Lemma retrieveTtyPath_outcomes_witness :
  CommandExecutor.retrieveTtyPath None Samples.idle_world
  = Some (Normal (lit "/dev/ttys005"),
          emit_event (Osascript (TellCurrent GetTty))
            (next_host Samples.idle_world)).
Proof.
  exact (proj2 (@retrieveTtyPath_outcomes Samples.idle_world Samples.iterm
                  (repeat Samples.iterm 7) (lit "/dev/ttys005" ++ [LF])
                  eq_refl eq_refl)).
Defined.

(** ** Script Encoder: reading the single-line encoding back *)

Lemma single_line_units (str : jsstring) :
  wf_string str ->
  includes [LF] str = false ->
  CommandExecutor.escapeForAppleScript str = flat_map Spec.escaped_unit str.
Proof.
  intros Hwf Hline. unfold CommandExecutor.escapeForAppleScript.
  rewrite Hline. unfold replace_class, replace_unit.
  rewrite !flat_map_compose. apply flat_map_pointwise.
  eapply Forall_impl; [|exact Hwf].
  intros c Hc. cbv beta. now apply single_line_passes.
Qed.

Lemma hexval_hexdigit (d : N) : (d < 16)%N -> Props.hexval (hexdigit d) = d.
Proof.
  intros H. unfold Props.hexval, hexdigit.
  destruct (N.ltb_spec d 10).
  - replace (48 + d <? 58)%N with true by (symmetry; apply N.ltb_lt; lia). lia.
  - replace (87 + d <? 58)%N with false by (symmetry; apply N.ltb_ge; lia).
    lia.
Qed.

Lemma decode_unit (c : N) (rest : jsstring) :
  (c < 65536)%N ->
  Props.decode (Spec.escaped_unit c ++ rest)
  = option_map (cons c) (Props.decode rest).
Proof.
  intros Hc. unfold Spec.escaped_unit, BACKSLASH, DQUOTE, SQUOTE.
  destruct (N.eqb_spec c 92) as [->|H1]; [reflexivity|].
  destruct (N.eqb_spec c 34) as [->|H2]; [reflexivity|].
  destruct (N.eqb_spec c 39) as [->|H3]; [reflexivity|].
  destruct ((32 <=? c)%N && (c <=? 126)%N).
  - cbn [app Props.decode]. unfold BACKSLASH, SQUOTE.
    apply N.eqb_neq in H1, H3. now rewrite H1, H3.
  - unfold Spec.hex4. cbn [app Props.decode]. unfold BACKSLASH.
    change (92 =? 92)%N with true. change (117 =? 117)%N with true.
    cbv iota.
    rewrite !hexval_hexdigit by lia_div.
    replace (4096 * (c / 4096) + 256 * (c / 256 mod 16)
             + 16 * (c / 16 mod 16) + c mod 16)%N with c by lia_div.
    reflexivity.
Qed.

Lemma decode_units (str : jsstring) :
  wf_string str -> Props.decode (flat_map Spec.escaped_unit str) = Some str.
Proof.
  induction 1 as [|c str Hc _ IH]; [reflexivity|].
  cbn [flat_map]. rewrite decode_unit by exact Hc. now rewrite IH.
Qed.

(** X14.  The single-line encoding can be read back: undoing the doubled
    backslashes, the escaped quotes and the numeric escapes gives the text
    that was encoded, so two different single-line texts never have the
    same encoding. *)
Theorem single_line_encoding_reads_back (s t : jsstring) :
  wf_string s -> includes [LF] s = false ->
  wf_string t -> includes [LF] t = false ->
  Props.decode (CommandExecutor.escapeForAppleScript s) = Some s
  /\ (CommandExecutor.escapeForAppleScript s
      = CommandExecutor.escapeForAppleScript t -> s = t).
Proof.
  intros Hs Ls Ht Lt.
  assert (Ds : Props.decode (CommandExecutor.escapeForAppleScript s) = Some s)
    by (rewrite single_line_units by assumption; now apply decode_units).
  assert (Dt : Props.decode (CommandExecutor.escapeForAppleScript t) = Some t)
    by (rewrite single_line_units by assumption; now apply decode_units).
  split; [exact Ds|]. intros E. rewrite E in Ds. congruence.
Qed.

Lemma single_line_encoding_reads_back_witness :
  Props.decode (CommandExecutor.escapeForAppleScript Samples.single_line)
  = Some Samples.single_line.
Proof.
  refine (proj1 (@single_line_encoding_reads_back Samples.single_line
                   Samples.single_line _ eq_refl _ eq_refl));
    repeat constructor.
Defined.

Lemma escaped_unit_plain (c : N) :
  Spec.escaped_unit c = [c] <-> Props.plain c = true.
Proof.
  unfold Spec.escaped_unit, Props.plain, BACKSLASH, DQUOTE, SQUOTE.
  destruct (N.eqb_spec c 92) as [->|H1]; [split; discriminate|].
  destruct (N.eqb_spec c 34) as [->|H2]; [split; discriminate|].
  destruct (N.eqb_spec c 39) as [->|H3]; [split; discriminate|].
  destruct ((32 <=? c)%N && (c <=? 126)%N); split;
    try reflexivity; discriminate.
Qed.

Lemma escaped_unit_not_plain (c : N) :
  Props.plain c = false -> In BACKSLASH (Spec.escaped_unit c).
Proof.
  unfold Spec.escaped_unit, Props.plain, BACKSLASH, DQUOTE, SQUOTE.
  destruct (N.eqb_spec c 92) as [->|H1]; [intros _; now left|].
  destruct (N.eqb_spec c 34) as [->|H2]; [intros _; now left|].
  destruct (N.eqb_spec c 39) as [->|H3]; [intros _; right; now left|].
  destruct ((32 <=? c)%N && (c <=? 126)%N); [discriminate|].
  intros _. now left.
Qed.

Lemma escaped_unit_length (c : N) :
  (1 <= List.length (Spec.escaped_unit c))%nat.
Proof.
  unfold Spec.escaped_unit.
  repeat match goal with
         | |- context [if ?b then _ else _] => destruct b
         end; cbn; lia.
Qed.

Lemma flat_map_length_ge (f : N -> jsstring) (s : jsstring) :
  (forall c, 1 <= List.length (f c))%nat ->
  (List.length s <= List.length (flat_map f s))%nat.
Proof.
  intros Hf. induction s as [|c s IH]; [cbn; lia|].
  cbn [flat_map List.length]. rewrite length_app. specialize (Hf c). lia.
Qed.

Lemma flat_map_fixed (f : N -> jsstring) (s : jsstring) :
  (forall c, 1 <= List.length (f c))%nat ->
  flat_map f s = s -> Forall (fun c => f c = [c]) s.
Proof.
  intros Hf. induction s as [|c s IH]; intros E; [constructor|].
  cbn [flat_map] in E.
  assert (L : (List.length (f c) + List.length (flat_map f s)
               = S (List.length s))%nat)
    by (rewrite <- length_app, E; reflexivity).
  pose proof (Hf c) as H1. pose proof (flat_map_length_ge f s Hf) as H2.
  destruct (f c) as [|x [|y l]] eqn:Efc; cbn in H1, L; try lia.
  cbn [app] in E. injection E as -> E. constructor; [exact Efc|now apply IH].
Qed.

Lemma hexdigit_printable (d : N) :
  (d < 16)%N -> (32 <= hexdigit d <= 126)%N.
Proof.
  intros H. unfold hexdigit. destruct (N.ltb_spec d 10); lia.
Qed.

Lemma escaped_unit_printable (c : N) :
  (c < 65536)%N ->
  Forall (fun x => (32 <= x <= 126)%N) (Spec.escaped_unit c).
Proof.
  intros Hc. unfold Spec.escaped_unit, BACKSLASH, DQUOTE, SQUOTE.
  destruct (N.eqb_spec c 92); [repeat (constructor; [lia|]); constructor|].
  destruct (N.eqb_spec c 34); [repeat (constructor; [lia|]); constructor|].
  destruct (N.eqb_spec c 39); [repeat (constructor; [lia|]); constructor|].
  destruct (N.leb_spec 32 c); destruct (N.leb_spec c 126); cbn [andb];
    try solve [constructor; [lia|constructor]].
  all: unfold Spec.hex4; cbn [app];
    constructor; [lia|]; constructor; [lia|];
    repeat (constructor; [apply hexdigit_printable; lia_div|]);
    constructor.
Qed.

Lemma escaped_units_printable (s : jsstring) :
  wf_string s ->
  Forall (fun c => (32 <= c <= 126)%N) (flat_map Spec.escaped_unit s).
Proof.
  induction 1 as [|c s Hc _ IH]; [constructor|].
  cbn [flat_map]. apply Forall_app. split; [|exact IH].
  now apply escaped_unit_printable.
Qed.

(** X15.  A single-line text is its own encoding exactly when every unit
    is printable ASCII other than the backslash and the two quotes; the
    encoding is never shorter than the text, and encoding an encoding once
    more changes it unless the text was of that plain kind. *)
Theorem single_line_encoding_fixed_points (s : jsstring) :
  wf_string s -> includes [LF] s = false ->
  (CommandExecutor.escapeForAppleScript s = s
   <-> forallb Props.plain s = true)
  /\ (List.length s
      <= List.length (CommandExecutor.escapeForAppleScript s))%nat
  /\ (forallb Props.plain s = false ->
      CommandExecutor.escapeForAppleScript
        (CommandExecutor.escapeForAppleScript s)
      <> CommandExecutor.escapeForAppleScript s).
Proof.
  intros Hwf Hline.
  assert (Fix : forall u, wf_string u -> includes [LF] u = false ->
            (CommandExecutor.escapeForAppleScript u = u
             <-> forallb Props.plain u = true)).
  { intros u Hu Lu. rewrite single_line_units by assumption. split.
    - intros E. apply forallb_forall. intros c Hc.
      apply flat_map_fixed in E; [|apply escaped_unit_length].
      rewrite Forall_forall in E. now apply escaped_unit_plain, E.
    - intros P. rewrite forallb_forall in P.
      transitivity (flat_map (fun c => [c]) u).
      + apply flat_map_pointwise, Forall_forall.
        intros c Hc. now apply escaped_unit_plain, P.
      + clear. induction u as [|c u IH]; [reflexivity|].
        cbn [flat_map app]. now rewrite IH. }
  split; [now apply Fix|]. split.
  - rewrite single_line_units by assumption.
    apply flat_map_length_ge, escaped_unit_length.
  - intros Hnot.
    pose proof (escaped_units_printable Hwf) as Hpr.
    rewrite <- single_line_units in Hpr by assumption.
    set (e := CommandExecutor.escapeForAppleScript s) in *.
    assert (We : wf_string e).
    { eapply Forall_impl; [|exact Hpr]. intros c Hc. cbv beta in *. lia. }
    assert (Le : includes [LF] e = false).
    { apply includes_unit_false. intros Hin.
      rewrite Forall_forall in Hpr. specialize (Hpr _ Hin).
      unfold LF in Hpr. lia. }
    intros E. apply (Fix e We Le) in E.
    rewrite forallb_forall in E.
    assert (Hex : exists c, In c s /\ Props.plain c = false).
    { clear -Hnot. induction s as [|c s IH]; [discriminate|].
      cbn [forallb] in Hnot. destruct (Props.plain c) eqn:Pc.
      - destruct (IH Hnot) as (x & Hx & Px). exists x. split; [now right|exact Px].
      - exists c. split; [now left|exact Pc]. }
    destruct Hex as (c & Hc & Pc).
    assert (Hb : In BACKSLASH e).
    { subst e. rewrite single_line_units by assumption.
      apply in_flat_map. exists c. split; [exact Hc|].
      now apply escaped_unit_not_plain. }
    specialize (E _ Hb). discriminate E.
Qed.

Lemma single_line_encoding_fixed_points_witness :
  CommandExecutor.escapeForAppleScript (lit "ls -la /tmp | wc -l")
  = lit "ls -la /tmp | wc -l".
Proof.
  refine (proj2 (proj1 (@single_line_encoding_fixed_points
                          (lit "ls -la /tmp | wc -l") _ eq_refl)) eq_refl).
  repeat constructor.
Defined.

(** ** Buffer Reader: counts that are absent, zero or negative *)

Lemma skipn_clamped (A : Type) (k : Z) (l : list A) :
  (0 <= k)%Z ->
  skipn (Z.to_nat (Z.min k (Z.of_nat (List.length l)))) l
  = skipn (Z.to_nat k) l.
Proof.
  intros Hk. destruct (Z.le_gt_cases k (Z.of_nat (List.length l))) as [H|H].
  - now rewrite Z.min_l by exact H.
  - rewrite Z.min_r by lia. rewrite Nat2Z.id.
    rewrite skipn_all. symmetry. apply skipn_all2. lia.
Qed.

(** X16.  With no count or a count of zero the reader returns the whole
    buffer; with a negative count -m it drops the first m-1 lines and
    returns the rest, so -1 also returns the whole buffer. *)
Theorem call_without_positive_count (ttyPath : option jsstring)
  (buffer : jsstring) (w w' : world) :
  TtyOutputReader.retrieveBuffer ttyPath w = Some (Normal buffer, w') ->
  TtyOutputReader.call None ttyPath w = Some (Normal buffer, w')
  /\ TtyOutputReader.call (Some 0%Z) ttyPath w = Some (Normal buffer, w')
  /\ (forall n, (n < 0)%Z ->
        TtyOutputReader.call (Some n) ttyPath w
        = Some (Normal (join [LF]
                          (skipn (Z.to_nat (- n - 1)) (split LF buffer))),
                w'))
  /\ TtyOutputReader.call (Some (-1)%Z) ttyPath w = Some (Normal buffer, w').
Proof.
  intros Hb. unfold TtyOutputReader.call, bind, ret. rewrite Hb.
  assert (Hneg : forall n, (n < 0)%Z ->
            TtyOutputReader.last_lines (Some n) buffer
            = join [LF] (skipn (Z.to_nat (- n - 1)) (split LF buffer))).
  { intros n Hn. unfold TtyOutputReader.last_lines.
    destruct n as [|p|p]; try lia. unfold slice.
    replace (- Z.neg p - 1 <? 0)%Z with false
      by (symmetry; apply Z.ltb_ge; lia).
    now rewrite skipn_clamped by lia. }
  repeat split.
  - intros n Hn. now rewrite Hneg.
  - rewrite Hneg by lia. change (Z.to_nat (- (-1) - 1)) with 0%nat.
    cbn [skipn]. now rewrite join_split.
Qed.

Lemma call_without_positive_count_witness :
  TtyOutputReader.call (Some (-2)%Z) (Some (lit "/dev/ttys001"))
    Samples.idle_world
  = Some (Normal (lit "build ok" ++ [LF] ++ lit "$"),
          emit_event
            (Osascript
               (TtyOutputReader.buffer_script (Some (lit "/dev/ttys001"))))
            (next_host Samples.idle_world)).
Proof.
  refine (proj1 (proj2 (proj2 (@call_without_positive_count
            (Some (lit "/dev/ttys001"))
            (lit "make" ++ [LF] ++ lit "build ok" ++ [LF] ++ lit "$")
            Samples.idle_world _ eq_refl))) (-2)%Z _).
  lia.
Defined.

(** X17.  Through the tool, a count that is absent or zero stands for 25,
    so the read operation returns the last 26 lines of the buffer (of the
    filtered buffer unless filtering is switched off); the earlier
    revision returns the last 26 lines of the buffer as it is. *)
Theorem read_tool_default_count (a : Index.arguments) (buffer : jsstring)
  (w w' : world) :
  Index.linesOfOutput a = None \/ Index.linesOfOutput a = Some 0%Z ->
  TtyOutputReader.retrieveBuffer (Index.resolve_ttyPath a) w
    = Some (Normal buffer, w') ->
  Index.call_tool Index.read_terminal_output a w
  = Some (Normal
            (join [LF]
               (Spec.trailing 26
                  (split LF
                     (match Index.filterBase64 a with
                      | Some false => buffer
                      | _ => TtyOutputReader.filterBase64Content buffer
                      end)))),
          w')
  /\ (forall w2,
        TtyOutputReader.retrieveBuffer (Index.resolve_ttyPath_earlier a) w
          = Some (Normal buffer, w2) ->
        Index.call_tool_earlier Index.read_terminal_output a w
        = Some (Normal (join [LF] (Spec.trailing 26 (split LF buffer))), w2)).
Proof.
  intros Hn Hb.
  assert (E : Index.requested_lines a = 25%Z)
    by (unfold Index.requested_lines; destruct Hn as [-> | ->]; reflexivity).
  unfold Index.call_tool, Index.call_tool_earlier,
    TtyOutputReader.call_filtering, TtyOutputReader.call, bind, ret.
  rewrite E, Hb. split.
  - destruct (Index.filterBase64 a) as [[|]|];
      now rewrite last_lines_trailing by lia.
  - intros w2 Hb2. rewrite Hb2. now rewrite last_lines_trailing by lia.
Qed.

Lemma read_tool_default_count_witness :
  Index.call_tool Index.read_terminal_output Samples.no_arguments
    Samples.idle_world
  = Some (Normal (lit "make" ++ [LF] ++ lit "build ok" ++ [LF] ++ lit "$"),
          emit_event
            (Osascript
               (TtyOutputReader.buffer_script (Some Index.DEFAULT_TTY)))
            (next_host Samples.idle_world)).
Proof.
  refine (eq_trans (proj1 (@read_tool_default_count Samples.no_arguments
            (lit "make" ++ [LF] ++ lit "build ok" ++ [LF] ++ lit "$")
            Samples.idle_world _ (or_introl eq_refl) eq_refl)) _).
  vm_compute. reflexivity.
Defined.

(** X18.  The payload filter leaves ordinary output alone: a text with no
    run of 100 base64 units and no escape character comes back unit for
    unit, and the read operation then returns the same with or without
    filtering. *)
Theorem filter_keeps_ordinary_output (buffer : jsstring) :
  Spec.short_runs buffer = true ->
  Spec.no_escape buffer = true ->
  TtyOutputReader.filterBase64Content buffer = buffer
  /\ (forall n ttyPath flag w w',
        TtyOutputReader.retrieveBuffer ttyPath w = Some (Normal buffer, w') ->
        TtyOutputReader.call_filtering n ttyPath flag w
        = TtyOutputReader.call n ttyPath w).
Proof.
  intros Hs He.
  assert (F : TtyOutputReader.filterBase64Content buffer = buffer).
  { unfold TtyOutputReader.filterBase64Content, replace_all at 2.
    rewrite replace_base64_short by exact Hs.
    now apply replace_imgcat_no_escape. }
  split; [exact F|].
  intros n ttyPath flag w w' Hb.
  unfold TtyOutputReader.call_filtering, TtyOutputReader.call, bind.
  rewrite Hb, F. now destruct flag as [[|]|].
Qed.

Lemma filter_keeps_ordinary_output_witness :
  TtyOutputReader.filterBase64Content
    (lit "commit 9fceb02d0ae598e95dc970b74767f19372d61af8" ++ [LF]
     ++ lit "$ ")
  = lit "commit 9fceb02d0ae598e95dc970b74767f19372d61af8" ++ [LF] ++ lit "$ ".
Proof.
  exact (proj1 (@filter_keeps_ordinary_output
                  (lit "commit 9fceb02d0ae598e95dc970b74767f19372d61af8"
                   ++ [LF] ++ lit "$ ") eq_refl eq_refl)).
Defined.

(** ** Completion Detector: the tty file, early ends, and no end *)

Lemma opened_app (l1 l2 : list event) :
  Props.opened (l1 ++ l2) = (Props.opened l1 + Props.opened l2)%nat.
Proof.
  induction l1 as [|e l1 IH]; [reflexivity|].
  destruct e; cbn [app Props.opened]; rewrite IH; reflexivity.
Qed.

Lemma closed_app (l1 l2 : list event) :
  Props.closed (l1 ++ l2) = (Props.closed l1 + Props.closed l2)%nat.
Proof.
  induction l1 as [|e l1 IH]; [reflexivity|].
  destruct e; cbn [app Props.closed]; rewrite IH; reflexivity.
Qed.

Lemma sampling_keeps_files (ttyPath : jsstring) (n : nat) :
  Props.opened (Spec.sampling ttyPath n) = 0%nat
  /\ Props.closed (Spec.sampling ttyPath n) = 0%nat.
Proof.
  induction n as [|n IH]; [now split|].
  destruct n as [|n]; [now split|]. exact IH.
Qed.

(** X19.  The detector opens the tty file once; when the file opens it is
    closed again exactly once, as the last effect before returning, and
    when it does not open nothing is closed. *)
Theorem detector_closes_what_it_opens (ttyPath : jsstring) (w : world)
  (c : completion bool) (w' : world) :
  CommandExecutor.isWaitingForUserInput ttyPath w = Some (c, w') ->
  exists events,
    Props.gained w w' events
    /\ Props.opened events = 1%nat
    /\ Props.closed events = (if tty_opens w then 1%nat else 0%nat)
    /\ (tty_opens w = true -> exists before, events = before ++ [CloseSync]).
Proof.
  unfold Props.gained. destruct (tty_opens w) eqn:Hopen.
  - rewrite isWaitingForUserInput_refines by exact Hopen.
    destruct (Spec.ready_after 0 (probes w)) as [n|]; [|discriminate].
    intros [= _ <-].
    destruct (sampling_keeps_files ttyPath n) as [Ho Hc].
    exists ([OpenSync ttyPath] ++ Spec.sampling ttyPath n ++ [CloseSync]).
    split; [reflexivity|].
    rewrite !opened_app, !closed_app, Ho, Hc.
    split; [reflexivity|]. split; [reflexivity|].
    intros _. exists ([OpenSync ttyPath] ++ Spec.sampling ttyPath n).
    now rewrite <- app_assoc.
  - rewrite isWaitingForUserInput_unopened by exact Hopen.
    intros [= _ <-]. exists [OpenSync ttyPath].
    repeat split. discriminate.
Qed.

Lemma detector_closes_what_it_opens_witness :
  exists events,
    Props.gained (Samples.busy_world Samples.samples_a)
      (Spec.detector_run (lit "/dev/ttys001") 4
         (Samples.busy_world Samples.samples_a)) events
    /\ Props.opened events = 1%nat
    /\ Props.closed events = 1%nat
    /\ (true = true -> exists before, events = before ++ [CloseSync]).
Proof.
  exact (@detector_closes_what_it_opens (lit "/dev/ttys001")
           (Samples.busy_world Samples.samples_a) (Normal true) _ eq_refl).
Defined.

Lemma ready_after_stops (p : probe) (rest pre : list probe) :
  p = NoProcess \/ p = ProbeFailure ->
  forall lows,
    Spec.ready_after lows pre = None ->
    Spec.ready_after lows (pre ++ p :: rest) = Some (S (List.length pre)).
Proof.
  intros Hp. induction pre as [|q pre IH]; intros lows.
  - intros _. now destruct Hp as [-> | ->].
  - cbn [app Spec.ready_after List.length].
    destruct q as [| |cpu]; try discriminate.
    destruct (Qle_bool 1 cpu).
    + destruct (Spec.ready_after 0 pre) eqn:E; [discriminate|].
      intros _. now rewrite IH.
    + destruct (3 <=? S lows)%nat; [discriminate|].
      destruct (Spec.ready_after (S lows) pre) eqn:E; [discriminate|].
      intros _. now rewrite IH.
Qed.

(** X20.  However much idle time has or has not been accumulated, the
    first probe that finds no foreground process, or that fails, ends the
    wait with that very sample. *)
Theorem detector_ends_on_idle_or_failed_probe (ttyPath : jsstring)
  (w : world) (pre : list probe) (p : probe) (rest : list probe) :
  tty_opens w = true ->
  probes w = pre ++ p :: rest ->
  p = NoProcess \/ p = ProbeFailure ->
  Spec.ready_after 0 pre = None ->
  CommandExecutor.isWaitingForUserInput ttyPath w
  = Some (Normal true, Spec.detector_run ttyPath (S (List.length pre)) w).
Proof.
  intros Hopen Hp Hkind Hpre.
  rewrite isWaitingForUserInput_refines by exact Hopen.
  now rewrite Hp, (@ready_after_stops p rest pre Hkind 0%nat Hpre).
Qed.

Lemma detector_ends_on_idle_or_failed_probe_witness :
  CommandExecutor.isWaitingForUserInput (lit "/dev/ttys001")
    (Samples.busy_world [Active 5; Active (1 # 2); ProbeFailure; Active 5])
  = Some (Normal true,
          Spec.detector_run (lit "/dev/ttys001") 3
            (Samples.busy_world
               [Active 5; Active (1 # 2); ProbeFailure; Active 5])).
Proof.
  exact (@detector_ends_on_idle_or_failed_probe (lit "/dev/ttys001")
           (Samples.busy_world
              [Active 5; Active (1 # 2); ProbeFailure; Active 5])
           [Active 5; Active (1 # 2)] ProbeFailure [Active 5]
           eq_refl eq_refl (or_intror eq_refl) eq_refl).
Defined.

Lemma ready_after_never (samples : list probe) :
  Forall Props.high samples ->
  forall lows, Spec.ready_after lows samples = None.
Proof.
  induction 1 as [|p samples Hp _ IH]; intros lows; [reflexivity|].
  destruct p as [| |cpu]; try (now destruct Hp).
  cbn [Spec.ready_after]. cbn in Hp. apply Qle_bool_iff in Hp.
  now rewrite Hp, IH.
Qed.

(** X21.  There is no ceiling on the wait: as long as every sample shows a
    process at or above 1 %, the detector is still polling when the
    samples end, however many there are. *)
Theorem detector_has_no_ceiling (ttyPath : jsstring) (w : world) :
  tty_opens w = true ->
  Forall Props.high (probes w) ->
  CommandExecutor.isWaitingForUserInput ttyPath w = None
  /\ (forall fuel,
        CommandExecutor.while_not_waiting (S fuel) ttyPath w = None).
Proof.
  intros Hopen Hhigh.
  assert (E : CommandExecutor.isWaitingForUserInput ttyPath w = None).
  { rewrite isWaitingForUserInput_refines by exact Hopen.
    now rewrite ready_after_never. }
  split; [exact E|]. intros fuel.
  now rewrite while_not_waiting_once, E.
Qed.

Lemma detector_has_no_ceiling_witness :
  CommandExecutor.isWaitingForUserInput (lit "/dev/ttys001")
    (Samples.busy_world (repeat (Active 5) 40))
  = None.
Proof.
  refine (proj1 (@detector_has_no_ceiling (lit "/dev/ttys001")
                   (Samples.busy_world (repeat (Active 5) 40)) eq_refl _)).
  apply Forall_forall. intros p Hp. apply repeat_spec in Hp. subst p.
  cbn. discriminate.
Defined.

(** ** The stand-alone reader script *)

(** X23.  [readTtyContents] never throws: it makes one bridge call and
    returns the trimmed output, or the word Error followed by the message
    of the failure; with no argument the script carries /dev/ttys001.  In
    particular a search that finds no session on the path comes back as
    such an Error text, not as an exception. *)
Theorem readTtyContents_never_throws (ttyPath : option jsstring) (w : world)
  (h : host) (hs : list host) :
  hosts w = h :: hs ->
  let path := match ttyPath with
              | Some p => p
              | None => lit "/dev/ttys001"
              end in
  let script := SearchByPath (escape_tty path) GetContents RaiseError in
  (exists text,
     ReadTtyContents.readTtyContents ttyPath w
     = Some (Normal text, emit_event (Osascript script) (next_host w)))
  /\ (forall out,
        run_script h script = Stdout out ->
        ReadTtyContents.readTtyContents ttyPath w
        = Some (Normal (trim out),
                emit_event (Osascript script) (next_host w)))
  /\ (forall e,
        run_script h script = ScriptError e ->
        ReadTtyContents.readTtyContents ttyPath w
        = Some (Normal (lit "Error: " ++ e),
                emit_event (Osascript script) (next_host w)))
  /\ (running h = true -> ~ has_session h path ->
      passes_quotes path = true ->
      exists e, run_script h script = ScriptError e).
Proof.
  intros Hh path script.
  unfold ReadTtyContents.readTtyContents, try_catch, bind, osascript.
  fold path. fold script. rewrite Hh. cbv beta iota zeta.
  split; [|split; [|split]].
  - destruct (run_script h script); eexists; reflexivity.
  - intros out ->. reflexivity.
  - intros e ->. reflexivity.
  - intros Hrun Hno Hq. subst script. eexists.
    apply run_script_unknown_path; try assumption.
    cbn [intact command_intact]. now rewrite passes_quotes_escape_tty, Hq.
Qed.

Lemma readTtyContents_never_throws_witness :
  ReadTtyContents.readTtyContents (Some Samples.unknown_tty)
    Samples.idle_world
  = Some (Normal
            (lit "Error: "
             ++ Samples.command_failed
                  (SearchByPath (escape_tty Samples.unknown_tty) GetContents
                     RaiseError)
                  (not_found_text Samples.unknown_tty)),
          emit_event
            (Osascript (SearchByPath (escape_tty Samples.unknown_tty)
                          GetContents RaiseError))
            (next_host Samples.idle_world)).
Proof.
  exact (proj1 (proj2 (proj2 (@readTtyContents_never_throws
                                (Some Samples.unknown_tty) Samples.idle_world
                                Samples.iterm (repeat Samples.iterm 7)
                                eq_refl)))
           _ eq_refl).
Defined.
(** ** A tool call on a path that no session has *)

Lemma retrieveBuffer_unknown_path (h : host) (path : jsstring) (w : world)
  (hs : list host) :
  path <> [] ->
  hosts w = h :: hs ->
  running h = true ->
  ~ has_session h path ->
  passes_quotes path = true ->
  (utf8_length (not_found_text path ++ [LF]) <= MAX_BUFFER)%N ->
  TtyOutputReader.retrieveBuffer (Some path) w
  = Some (Normal (trim (not_found_text path ++ [LF])),
          emit_event
            (Osascript (TtyOutputReader.buffer_script (Some path)))
            (next_host w)).
Proof.
  intros Hp Hh Hrun Hno Hq Hlen. destruct path as [|c0 path]; [now elim Hp|].
  unfold TtyOutputReader.retrieveBuffer, try_catch, bind, osascript.
  rewrite Hh. unfold TtyOutputReader.buffer_script at 1. cbn [truthy].
  unfold run_script. cbn [intact command_intact].
  rewrite passes_quotes_escape_tty, Hq. cbn [andb].
  rewrite (proj2 (in_application_unknown_path _ Hrun Hno)).
  apply N.leb_le in Hlen. now rewrite Hlen.
Qed.

(** X25.  The write tool on a path that no session has makes two bridge
    calls: the buffer read before the command, which comes back with the
    not-found words as its text, and the write, which fails; the tool call
    fails with a message that starts with the name of the write operation,
    and nothing is polled.  (The path and the command are such that both
    command lines reach osascript whole, and the path is short enough for
    the first answer to fit the output buffer.) *)
Theorem write_tool_unknown_path (a : Index.arguments) (path : jsstring)
  (w : world) (h h' : host) (hs : list host) :
  Index.ttyPath a = Some path ->
  path <> [] ->
  hosts w = h :: h' :: hs ->
  running h = true -> ~ has_session h path ->
  running h' = true -> ~ has_session h' path ->
  passes_quotes path = true ->
  (utf8_length (not_found_text path ++ [LF]) <= MAX_BUFFER)%N ->
  intact (CommandExecutor.write_script (Some path)
            (Index.String_ (Index.command a))) = true ->
  exists m w',
    Index.call_tool Index.write_to_terminal a w
    = Some (Thrown (lit "Failed to execute command: " ++ m), w')
    /\ Index.call_tool_earlier Index.write_to_terminal a w
       = Some (Thrown (lit "Failed to execute command: " ++ m), w')
    /\ hosts w' = hs
    /\ Props.gained w w'
         [Osascript (TtyOutputReader.buffer_script (Some path));
          Osascript (CommandExecutor.write_script (Some path)
                       (Index.String_ (Index.command a)))].
Proof.
  intros Ha Hp Hh Hrun Hno Hrun' Hno' Hq Hlen Hin.
  assert (Hr : Index.resolve_ttyPath a = Some path
               /\ Index.resolve_ttyPath_earlier a = Some path).
  { unfold Index.resolve_ttyPath, Index.resolve_ttyPath_earlier.
    rewrite Ha. destruct path; [now elim Hp|now split]. }
  destruct Hr as [Hr1 Hr2].
  assert (Ht : truthy (Some path) = Some path)
    by (destruct path; [now elim Hp|reflexivity]).
  set (w1 := emit_event
               (Osascript (TtyOutputReader.buffer_script (Some path)))
               (next_host w)).
  assert (E1 : TtyOutputReader.retrieveBuffer (Some path) w
               = Some (Normal (trim (not_found_text path ++ [LF])), w1))
    by (now apply (@retrieveBuffer_unknown_path h path w (h' :: hs))).
  assert (Hh1 : hosts w1 = h' :: hs)
    by (subst w1; destruct w; cbn in *; now subst).
  assert (Hfail : run_script h'
                    (CommandExecutor.write_script (truthy (Some path))
                       (Index.String_ (Index.command a)))
                  = ScriptError
                      (exec_message h'
                         (CommandExecutor.write_script (Some path)
                            (Index.String_ (Index.command a)))
                         (not_found_text path))).
  { rewrite Ht. rewrite write_script_by_path in Hin |- *.
    now apply run_script_unknown_path. }
  destruct (@executeCommand_failed_write (Some path)
              (Index.String_ (Index.command a)) w1 h' hs _ Hh1 Hfail)
    as [m E2].
  rewrite Ht in E2.
  exists m. eexists. unfold Index.call_tool, Index.call_tool_earlier.
  rewrite Hr1, Hr2.
  rewrite !(@bind_normal _ _ _ _ _ _ _ E1).
  unfold bind at 1 3. rewrite E2.
  split; [reflexivity|]. split; [reflexivity|]. split.
  - subst w1. destruct w. cbn in *. now subst.
  - unfold Props.gained. subst w1. destruct w. cbn.
    now rewrite <- app_assoc.
Qed.

Lemma write_tool_unknown_path_witness :
  exists m w',
    Index.call_tool Index.write_to_terminal Samples.read_unknown
      Samples.idle_world
    = Some (Thrown (lit "Failed to execute command: " ++ m), w')
    /\ Index.call_tool_earlier Index.write_to_terminal Samples.read_unknown
         Samples.idle_world
       = Some (Thrown (lit "Failed to execute command: " ++ m), w')
    /\ hosts w' = repeat Samples.iterm 6
    /\ Props.gained Samples.idle_world w'
         [Osascript (TtyOutputReader.buffer_script
                       (Some Samples.unknown_tty));
          Osascript (CommandExecutor.write_script (Some Samples.unknown_tty)
                       (lit "undefined"))].
Proof.
  refine (@write_tool_unknown_path Samples.read_unknown Samples.unknown_tty
            Samples.idle_world Samples.iterm Samples.iterm
            (repeat Samples.iterm 6) eq_refl _ eq_refl eq_refl
            iterm_has_no_ttys999 eq_refl iterm_has_no_ttys999 eq_refl _
            eq_refl).
  - discriminate.
  - vm_compute. discriminate.
Defined.
